(** * Request and response bodies of the conjure-go-runtime HTTP client

    A shallow embedding of [conjure-go-client/httpclient/body_types.go] and
    [conjure-go-client/httpclient/body_handler.go].

    Go values that the code shares by pointer live in an explicit [World]:
    the backing arrays of byte slices, the in-memory buffers and readers the
    caller hands over by pointer, and the caller's own state.  Code that can
    panic or that touches the world runs in the monad [M], which also keeps a
    trace of the calls the middleware makes to its collaborators (buffer pool,
    encoder, transport, decoder). *)

From Stdlib Require Import List ZArith String Bool Lia.
From Stdlib Require Import Strings.Byte.
Import ListNotations.
Local Open Scope Z_scope.

(** ** Memory: slices, buffers and readers *)

Definition ptr := nat.

(** A Go [[]byte]: a window of [len] bytes starting at [lo] in backing array
    [arr].  Copying a slice header shares the array. *)
Record slice := mkSlice { arr : nat; lo : nat; len : nat }.

(** The three in-memory payload types accepted by [RequestBodyInMemory], as
    struct values: [bytes.Buffer{buf, off}], [bytes.Reader{s, i}] and
    [strings.Reader{s, i}] (a Go string is immutable, so its bytes are part
    of the value). *)
Inductive inmem :=
| BytesBuffer (buf : slice) (off : nat)
| BytesReader (s : slice) (i : Z)
| StringsReader (s : list byte) (i : Z).

Record World := mkWorld {
  arrays : list (list byte);   (* backing arrays, by array id *)
  objs : list inmem;           (* heap objects, by pointer *)
  streams : list (list byte);  (* contents of the caller's own streams *)
  ext : list Z                 (* state owned by the caller's closures *)
}.

Definition deref (w : World) (p : ptr) : option inmem := nth_error (objs w) p.

Definition sliceBytes (w : World) (s : slice) : list byte :=
  firstn (len s) (skipn (lo s) (nth (arr s) (arrays w) [])).

(** [s[i:]] for an in-range [i]. *)
Definition sliceFrom (s : slice) (i : nat) : slice :=
  mkSlice (arr s) (lo s + i) (len s - i).

(** The [Len] method of each of the three types. *)
Definition inmemLen (r : inmem) : Z :=
  match r with
  | BytesBuffer buf off => Z.of_nat (len buf) - Z.of_nat off
  | BytesReader s i =>
      if Z.of_nat (len s) <=? i then 0 else Z.of_nat (len s) - i
  | StringsReader s i =>
      if Z.of_nat (List.length s) <=? i then 0 else Z.of_nat (List.length s) - i
  end.

(** The bytes [io.ReadAll] gets from a fresh reader over the struct value
    [r]: the unread part, looked up in the world at the time of the read. *)
Definition inmemUnread (w : World) (r : inmem) : list byte :=
  match r with
  | BytesBuffer buf off => sliceBytes w (sliceFrom buf off)
  | BytesReader s i =>
      if Z.of_nat (len s) <=? i then [] else sliceBytes w (sliceFrom s (Z.to_nat i))
  | StringsReader s i =>
      if Z.of_nat (List.length s) <=? i then [] else skipn (Z.to_nat i) s
  end.

(** The invariants Go maintains for these values: a slice lies inside its
    array and the read position is within [0, len]. *)
Definition sliceOk (w : World) (s : slice) : Prop :=
  (lo s + len s <= List.length (nth (arr s) (arrays w) []))%nat.

Definition inmemOk (w : World) (r : inmem) : Prop :=
  match r with
  | BytesBuffer buf off => sliceOk w buf /\ (off <= len buf)%nat
  | BytesReader s i => sliceOk w s /\ 0 <= i
  | StringsReader s i => 0 <= i
  end.

(** ** Streams *)

(** An [io.ReadCloser] value.  [NopCloser r] is [io.NopCloser(&r)] for a
    private copy [r] of an in-memory value (this covers
    [io.NopCloser(bytes.NewReader(raw))], whose reader is
    [bytes.Reader{raw, 0}]). *)
Inductive ReadCloser :=
| NoBody
| NopCloser (r : inmem)
| UserStream (id : nat).

Definition readAll (w : World) (rc : ReadCloser) : list byte :=
  match rc with
  | NoBody => []
  | NopCloser r => inmemUnread w r
  | UserStream id => nth id (streams w) []
  end.

(** ** Errors *)

Inductive error :=
| ErrUnexpectedType (fn : string) (ty : string)
| ErrNotRequestBody (requestInputType : string)
| ErrOther (code : nat).

(** ** The monad of the middleware *)

Inductive event :=
| EvPoolGet (buf : ptr)
| EvPoolPut (buf : ptr)
| EvMarshal
| EvEncode (buf : ptr)
| EvTransport
| EvCleanup
| EvDecode.

Record state := mkState { world : World; trace : list event }.

Inductive res (A : Type) :=
| Val (a : A)
| Panic.
Arguments Val {A} a.
Arguments Panic {A}.

Definition M (A : Type) : Type := state -> res A * state.

Definition ret {A} (a : A) : M A := fun s => (Val a, s).

Definition bind {A B} (m : M A) (k : A -> M B) : M B :=
  fun s => match m s with
           | (Val a, s') => k a s'
           | (Panic, s') => (Panic, s')
           end.

Definition panic {A} : M A := fun s => (Panic, s).

Definition emit (e : event) : M unit :=
  fun s => (Val tt, mkState (world s) (trace s ++ [e])).

(** Code of a collaborator: it sees and changes the world, not the trace. *)
Definition liftW {A} (f : World -> A * World) : M A :=
  fun s => let (a, w') := f (world s) in (Val a, mkState w' (trace s)).

Declare Scope m_scope.
Delimit Scope m_scope with M.
Notation "x <- c ;; k" := (bind c (fun x => k))
  (at level 61, c at next level, right associativity) : m_scope.
Notation "' pat <- c ;; k" := (bind c (fun x => match x with pat => k end))
  (at level 61, pat pattern, c at next level, right associativity) : m_scope.
Notation "c ;;; k" := (bind c (fun _ => k))
  (at level 61, right associativity) : m_scope.
Local Open Scope m_scope.

(** ** body_types.go *)

(** [func() (io.ReadCloser, error)], the type of [http.Request.GetBody]. *)
Definition getBodyFunc := M (option ReadCloser * option error).

(** The four results of a [requestBodyFunc]. *)
Record bodyResult := mkBodyResult {
  br_length : Z;
  br_body : option ReadCloser;
  br_getBody : option getBodyFunc;
  br_err : option error
}.

Definition requestBodyFunc := M bodyResult.

(** The fields of [http.Request] the package writes. *)
Record Request := mkRequest {
  ContentLength : Z;
  Body : option ReadCloser;
  GetBody : option getBodyFunc
}.

Definition emptyRequest : Request := mkRequest 0 None None.

(** [func (f requestBodyFunc) setRequestBody(req *http.Request) error]; the
    request is returned along with the error. *)
Definition requestBodyFunc_setRequestBody (f : requestBodyFunc) (req : Request)
  : M (Request * option error) :=
  r <- f ;;
  match br_err r with
  | Some e => ret (req, Some e)
  | None =>
      match br_body r with
      | None => ret (mkRequest 0 (Some NoBody) None, None)
      | Some body => ret (mkRequest (br_length r) (Some body) (br_getBody r), None)
      end
  end.

(** The [RequestBody] interface has two implementations: [requestBodyFunc]
    and the marker struct [noRetriesRequestBody], which embeds one. *)
Inductive RequestBody :=
| RBFunc (f : requestBodyFunc)
| RBNoRetries (f : requestBodyFunc).

Definition setRequestBody (rb : RequestBody) (req : Request)
  : M (Request * option error) :=
  match rb with
  | RBFunc f => requestBodyFunc_setRequestBody f req
  | RBNoRetries f => requestBodyFunc_setRequestBody f req
  end.

Definition RequestBodyEmpty : RequestBody :=
  RBFunc (ret (mkBodyResult 0 (Some NoBody) None None)).

(** [contentLengthInMemory]: 0 for a nil pointer, else [Len()]. *)
Definition contentLengthInMemory (w : World) (input : option ptr) : option Z :=
  match input with
  | None => Some 0
  | Some p => option_map inmemLen (deref w p)
  end.

(** [RequestBodyInMemory]: everything happens inside the returned closure,
    which reads [*input] from the world it is run in. *)
Definition RequestBodyInMemory (input : option ptr) : RequestBody :=
  RBFunc (
    match input with
    | None => ret (mkBodyResult 0 None None None)
    | Some p =>
        o <- (fun s => (Val (deref (world s) p), s)) ;;
        match o with
        | None => panic   (* no live Go pointer is dangling *)
        | Some snapshot =>
            let contentLen := inmemLen snapshot in
            let getBody : getBodyFunc :=
              (let r := snapshot in ret (Some (NopCloser r), None)) in
            '(firstBody, _) <- getBody ;;
            ret (mkBodyResult contentLen firstBody (Some getBody) None)
        end
    end).

(** *** Stream factories *)

(** The three function types of the constraint [requestBodyStreamInput].
    They are the caller's code: they run on the world. *)
Definition fn1 := World -> option ReadCloser * World.
Definition fn2 := World -> (option ReadCloser * option error) * World.
Definition fn3 := World -> (option ReadCloser * Z * option error) * World.

(** A value of a type parameter [T requestBodyStreamInput]: [T] is one of
    the three function types and the value may be the nil function. *)
Inductive streamInput :=
| InF1 (v : option fn1)
| InF2 (v : option fn2)
| InF3 (v : option fn3).

(** What a type switch sees: a dynamic type with its value, or the nil
    interface ([None]).  [DynOther] stands for every other dynamic type. *)
Inductive dyn :=
| DynF1 (v : option fn1)
| DynF2 (v : option fn2)
| DynF3 (v : option fn3)
| DynOther (ty : string).

Definition iface := option dyn.

(** [any(input)]: converting a function value to an interface keeps its
    type, also when the function is nil. *)
Definition any_of (input : streamInput) : iface :=
  match input with
  | InF1 v => Some (DynF1 v)
  | InF2 v => Some (DynF2 v)
  | InF3 v => Some (DynF3 v)
  end.

(** Calling a function value: calling the nil function panics. *)
Definition call {A} (v : option (World -> A * World)) : M A :=
  match v with
  | None => panic
  | Some f => liftW f
  end.

(** The closure built by [RequestBodyStreamOnce], as a function of the
    interface value its type switch inspects. *)
Definition streamOnceFunc (x : iface) : requestBodyFunc :=
  match x with
  | Some (DynOther ty) =>
      ret (mkBodyResult 0 None None
             (Some (ErrUnexpectedType "httpclient.RequestBodyStreamOnce" ty)))
  | None => ret (mkBodyResult 0 None None None)
  | Some (DynF1 v) =>
      body <- call v ;;
      ret (mkBodyResult (-1) body None None)
  | Some (DynF2 v) =>
      '(body, err) <- call v ;;
      ret (mkBodyResult (-1) body None err)
  | Some (DynF3 v) =>
      '(body, contentLen, err) <- call v ;;
      ret (mkBodyResult contentLen body None err)
  end.

Definition RequestBodyStreamOnce (input : streamInput) : RequestBody :=
  RBNoRetries (streamOnceFunc (any_of input)).

(** The closure built by [RequestBodyStreamWithReplay]. *)
Definition streamWithReplayFunc (x : iface) : requestBodyFunc :=
  match x with
  | Some (DynOther ty) =>
      ret (mkBodyResult 0 None None
             (Some (ErrUnexpectedType "httpclient.RequestBodyStreamWithReplay" ty)))
  | None => ret (mkBodyResult 0 None None None)
  | Some (DynF1 v) =>
      body <- call v ;;
      let getBody : getBodyFunc := (b <- call v ;; ret (b, None)) in
      ret (mkBodyResult (-1) body (Some getBody) None)
  | Some (DynF2 v) =>
      '(body, err) <- call v ;;
      ret (mkBodyResult (-1) body (Some (call v)) err)
  | Some (DynF3 v) =>
      let getBody : getBodyFunc := ('(b, _, e) <- call v ;; ret (b, e)) in
      '(body, contentLen, err) <- call v ;;
      ret (mkBodyResult contentLen body (Some getBody) err)
  end.

Definition RequestBodyStreamWithReplay (input : streamInput) : RequestBody :=
  RBFunc (streamWithReplayFunc (any_of input)).

(** *** Encoder bodies *)

(** A value of type [interface{}] given as request input: a [RequestBody]
    or anything else (its type name and some data). *)
Inductive value :=
| VRequestBody (rb : RequestBody)
| VOther (ty : string) (data : list byte).

(** [codecs.Encoder], an interface of another package: [Marshal] returns a
    byte slice it allocated, [Encode] writes to the buffer it is given. *)
Record Encoder := mkEncoder {
  Marshal : value -> World -> (slice * option error) * World;
  Encode : ptr -> value -> World -> option error * World
}.

(** [buffer.Bytes()] is [b.buf[b.off:]]: a slice of the buffer's own array. *)
Definition bufferBytes (buffer : ptr) : M slice :=
  fun s => match deref (world s) buffer with
           | Some (BytesBuffer buf off) => (Val (sliceFrom buf off), s)
           | _ => (Panic, s)   (* not a live *bytes.Buffer *)
           end.

(** [bytes.NewReader(raw)]. *)
Definition NewReader (raw : slice) : inmem := BytesReader raw 0.

Definition RequestBodyEncoderObject (input : value) (encoder : Encoder) : RequestBody :=
  RBFunc (
    emit EvMarshal ;;;
    '(raw, err) <- liftW (Marshal encoder input) ;;
    match err with
    | Some e => ret (mkBodyResult 0 None None (Some e))
    | None =>
        let getBody : getBodyFunc := ret (Some (NopCloser (NewReader raw)), None) in
        '(body, _) <- getBody ;;
        ret (mkBodyResult (Z.of_nat (len raw)) body (Some getBody) None)
    end).

Definition RequestBodyEncoderObjectBuffer (input : value) (encoder : Encoder)
  (buffer : ptr) : RequestBody :=
  RBFunc (
    emit (EvEncode buffer) ;;;
    err <- liftW (Encode encoder buffer input) ;;
    match err with
    | Some e => ret (mkBodyResult 0 None None (Some e))
    | None =>
        raw <- bufferBytes buffer ;;
        let getBody : getBodyFunc := ret (Some (NopCloser (NewReader raw)), None) in
        '(body, _) <- getBody ;;
        ret (mkBodyResult (Z.of_nat (len raw)) body (Some getBody) None)
    end).

(** [RetrieveReaderFromRequestBody]: materialize on a zero request. *)
Definition RetrieveReaderFromRequestBody (body : RequestBody)
  : M (option ReadCloser * Z * option error) :=
  '(req, err) <- setRequestBody body emptyRequest ;;
  match err with
  | Some e => ret (None, 0, Some e)
  | None => ret (Body req, ContentLength req, None)
  end.

(** ** body_handler.go *)

(** [bytesbuffers.Pool] and [codecs.Decoder], interfaces of other packages,
    and the next [http.RoundTripper]. *)
Record Pool := mkPool {
  Get : World -> ptr * World;
  Put : ptr -> World -> unit * World
}.

Record Decoder := mkDecoder {
  Decode : ReadCloser -> nat -> World -> option error * World
}.

Record Response := mkResponse {
  StatusCode : Z;
  RespBody : option ReadCloser;
  RespContentLength : Z
}.

Definition RoundTripper := Request -> World -> (option Response * option error) * World.

Record bodyMiddleware := mkBodyMiddleware {
  requestInput : option value;
  requestEncoder : option Encoder;
  rawOutput : bool;
  responseOutput : option nat;
  responseDecoder : option Decoder;
  bufferPool : option Pool
}.

Definition poolGet (p : Pool) : M ptr :=
  buf <- liftW (Get p) ;;
  emit (EvPoolGet buf) ;;;
  ret buf.

Definition poolPut (p : Pool) (buf : ptr) : M unit :=
  emit (EvPoolPut buf) ;;;
  liftW (Put p buf).

(** [b.requestInput.(RequestBody)]. *)
Definition asRequestBody (v : value) : option RequestBody :=
  match v with
  | VRequestBody rb => Some rb
  | VOther _ _ => None
  end.

(** [fmt.Sprintf("%T", b.requestInput)]. *)
Definition typeName (v : value) : string :=
  match v with
  | VRequestBody (RBFunc _) => "httpclient.requestBodyFunc"
  | VRequestBody (RBNoRetries _) => "httpclient.noRetriesRequestBody"
  | VOther ty _ => ty
  end.

(** [bodyMiddleware.setRequestBody]: the cleanup function (nil on the
    configuration error), the error, and the request as it was left. *)
Definition bm_setRequestBody (b : bodyMiddleware) (req : Request)
  : M (option (M unit) * option error * Request) :=
  let finish (cleanup : M unit) (requestBody : RequestBody) :=
    '(req', err) <- setRequestBody requestBody req ;;
    ret (Some cleanup, err, req') in
  match requestInput b with
  | None => finish (ret tt) RequestBodyEmpty
  | Some input =>
      match requestEncoder b with
      | Some encoder =>
          match bufferPool b with
          | Some pool =>
              buf <- poolGet pool ;;
              finish (poolPut pool buf) (RequestBodyEncoderObjectBuffer input encoder buf)
          | None => finish (ret tt) (RequestBodyEncoderObject input encoder)
          end
      | None =>
          match asRequestBody input with
          | Some body => finish (ret tt) body
          | None => ret (None, Some (ErrNotRequestBody (typeName input)), req)
          end
      end
  end.

(** [bodyMiddleware.noRetriesRequestBody]. *)
Definition noRetriesRequestBody (b : bodyMiddleware) : bool :=
  match requestEncoder b, requestInput b with
  | None, Some input =>
      match input with
      | VRequestBody (RBNoRetries _) => true
      | _ => false
      end
  | _, _ => false
  end.

(** [bodyMiddleware.readResponse]. *)
Definition readResponse (b : bodyMiddleware) (resp : option Response)
  (respErr : option error) : M (option error) :=
  if rawOutput b && (match respErr with None => true | Some _ => false end)
  then ret None
  else
    match respErr with
    | Some e => ret (Some e)
    | None =>
        match responseOutput b, resp with
        | Some out, Some r =>
            match RespBody r with
            | Some body =>
                if RespContentLength r =? 0 then ret None
                else
                  match responseDecoder b with
                  | None => panic   (* method call on a nil interface *)
                  | Some d =>
                      emit EvDecode ;;;
                      decErr <- liftW (Decode d body out) ;;
                      match decErr with
                      | Some e => ret (Some e)
                      | None => ret None
                      end
                  end
            | None => ret None
            end
        | _, _ => ret None
        end
    end.

(** Calling a function value of type [func()]. *)
Definition callCleanup (cleanup : option (M unit)) : M unit :=
  match cleanup with
  | None => panic
  | Some c => emit EvCleanup ;;; c
  end.

(** [bodyMiddleware.RoundTrip]. *)
Definition RoundTrip (b : bodyMiddleware) (req : Request) (next : RoundTripper)
  : M (option Response * option error) :=
  '(cleanup, err, req') <- bm_setRequestBody b req ;;
  match err with
  | Some e => ret (None, Some e)
  | None =>
      emit EvTransport ;;;
      '(resp, respErr) <- liftW (next req') ;;
      callCleanup cleanup ;;;
      e <- readResponse b resp respErr ;;
      match e with
      | Some e' => ret (None, Some e')
      | None => ret (resp, None)
      end
  end.

(** Only [RequestBodyStreamOnce] builds the marker type. *)
Definition isNoRetries (rb : RequestBody) : bool :=
  match rb with
  | RBNoRetries _ => true
  | RBFunc _ => false
  end.

(** ** Test data *)

Definition hello : list byte := ["h"; "e"; "l"; "l"; "o"]%byte.

Definition helloWorld : World :=
  mkWorld [hello]
          [BytesBuffer (mkSlice 0 0 5) 0; BytesReader (mkSlice 0 0 5) 0; StringsReader hello 0]
          [hello] [].

Definition helloState : state := mkState helloWorld [].

(** What [TestRetrieveRequestBodyReader] observes: the content read, the
    reported length and the error. *)
Definition retrieved (body : RequestBody) (s : state)
  : res (list byte * Z * option error) :=
  match RetrieveReaderFromRequestBody body s with
  | (Val (Some r, l, err), s') => Val (readAll (world s') r, l, err)
  | (Val (None, l, err), _) => Val ([], l, err)
  | (Panic, _) => Panic
  end.

Definition helloStream : fn1 := fun w => (Some (UserStream 0), w).
Definition nilStream : fn1 := fun w => (None, w).

(** A body function in the shape the first clause talks about: nil body,
    but a length and a replay function. *)
Definition nilBodyWithLength : requestBodyFunc :=
  ret (mkBodyResult 7 None (Some (ret (Some NoBody, None))) None).

Definition failingBody : requestBodyFunc :=
  ret (mkBodyResult 7 (Some NoBody) None (Some (ErrOther 1))).

Definition usedRequest : Request := mkRequest 3 (Some (UserStream 0)) None.

(** An encoder that fails, and one that writes fixed bytes. *)
Definition failingEncoder : Encoder :=
  mkEncoder (fun _ w => ((mkSlice 0 0 0, Some (ErrOther 2)), w))
            (fun _ _ w => (Some (ErrOther 2), w)).

Definition onceMiddleware : bodyMiddleware :=
  mkBodyMiddleware (Some (VRequestBody (RequestBodyStreamOnce (InF1 (Some helloStream)))))
                   None false None None None.

Definition encodedOnceMiddleware : bodyMiddleware :=
  mkBodyMiddleware (Some (VRequestBody (RequestBodyStreamOnce (InF1 (Some helloStream)))))
                   (Some failingEncoder) false None None None.

(** A pool that always hands out the buffer at pointer 0. *)
Definition fixedPool : Pool := mkPool (fun w => (0%nat, w)) (fun _ w => (tt, w)).

Definition otherValue : value := VOther "map[string]string" hello.

Definition mw (input : option value) (enc : option Encoder) (pool : option Pool)
  : bodyMiddleware :=
  mkBodyMiddleware input enc false None None pool.

(** A transport that answers 200 with the caller's stream 0 as body. *)
Definition okResponse : Response := mkResponse 200 (Some (UserStream 0)) 5.

Definition okTransport : RoundTripper := fun _ w => ((Some okResponse, None), w).

Definition failingDecoder : Decoder := mkDecoder (fun _ _ w => (Some (ErrOther 3), w)).

Definition rmw (raw : bool) (out : option nat) (dec : option Decoder) : bodyMiddleware :=
  mkBodyMiddleware None None raw out dec None.

Definition afterCleanup : state := mkState helloWorld [EvTransport; EvCleanup].

(** The events of a trace that take a buffer from the pool, give one back,
    or run the cleanup function. *)
Definition isPoolGet (e : event) : bool :=
  match e with EvPoolGet _ => true | _ => false end.

Definition isPoolPut (e : event) : bool :=
  match e with EvPoolPut _ => true | _ => false end.

Definition isCleanup (e : event) : bool :=
  match e with EvCleanup => true | _ => false end.

Definition isTransport (e : event) : bool :=
  match e with EvTransport => true | _ => false end.

Definition count (p : event -> bool) (tr : list event) : nat :=
  List.length (filter p tr).

(** Calling a replay function [n] times in a row. *)
Fixpoint replay (n : nat) (gb : getBodyFunc)
  : M (list (option ReadCloser * option error)) :=
  match n with
  | O => ret []
  | S n' =>
      r <- gb ;;
      rs <- replay n' gb ;;
      ret (r :: rs)
  end.

(** The backing array an in-memory value reads from, if it has one. *)
Definition inmemArr (r : inmem) : option nat :=
  match r with
  | BytesBuffer buf _ => Some (arr buf)
  | BytesReader s _ => Some (arr s)
  | StringsReader _ _ => None
  end.

(** Worlds [w] and [w'] agree on the array [r] reads from. *)
Definition sameArray (r : inmem) (w w' : World) : Prop :=
  match inmemArr r with
  | Some a => nth a (arrays w') [] = nth a (arrays w) []
  | None => True
  end.

Definition helloWorldBytes : list byte :=
  ["h"; "e"; "l"; "l"; "o"; " "; "w"; "o"; "r"; "l"; "d"]%byte.

(** [helloWorld] after the caller wrote " world" to the buffer at pointer 0
    (the buffer grew into a new array). *)
Definition grownWorld : World :=
  mkWorld [hello; helloWorldBytes]
          [BytesBuffer (mkSlice 1 0 11) 0; BytesReader (mkSlice 0 0 5) 0; StringsReader hello 0]
          [hello] [].

(** [helloWorld] after the caller reset the buffer at pointer 0 and wrote
    "HELLO" to it: the bytes went into the same backing array. *)
Definition overwrittenWorld : World :=
  mkWorld [["H"; "E"; "L"; "L"; "O"]%byte]
          [BytesBuffer (mkSlice 0 0 5) 0; BytesReader (mkSlice 0 0 5) 0; StringsReader hello 0]
          [hello] [].

Definition setNth {A} (n : nat) (x : A) (l : list A) : list A :=
  firstn n l ++ x :: skipn (S n) l.

(** An encoder that encodes every value as [enc]: [Marshal] allocates an
    array for it, [Encode] writes it to the buffer, which moves to a new
    array holding its old bytes followed by [enc]. *)
Definition writeEncoder (enc : list byte) : Encoder :=
  mkEncoder
    (fun _ w =>
       ((mkSlice (List.length (arrays w)) 0 (List.length enc), None),
        mkWorld (arrays w ++ [enc]) (objs w) (streams w) (ext w)))
    (fun buffer _ w =>
       match deref w buffer with
       | Some (BytesBuffer buf off) =>
           (None,
            mkWorld (arrays w ++ [sliceBytes w buf ++ enc])
                    (setNth buffer
                       (BytesBuffer (mkSlice (List.length (arrays w)) 0
                                             (len buf + List.length enc)) off)
                       (objs w))
                    (streams w) (ext w))
       | _ => (Some (ErrOther 9), w)
       end).

Definition hi : list byte := ["h"; "i"]%byte.

(** A world whose buffer at pointer 0 already holds the byte "x", and one
    whose buffer is empty. *)
Definition junkWorld : World :=
  mkWorld [["x"]%byte] [BytesBuffer (mkSlice 0 0 1) 0] [] [].

Definition emptyBufferWorld : World :=
  mkWorld [[]] [BytesBuffer (mkSlice 0 0 0) 0] [] [].

(** Stream factories of the three shapes, for the examples: one that fails
    after producing a stream, one that gives a stream of known length. *)
Definition failingStream2 : fn2 := fun w => ((Some (UserStream 0), Some (ErrOther 5)), w).
Definition failingStream3 : fn3 := fun w => ((Some (UserStream 0), 5, Some (ErrOther 5)), w).
Definition nilStream2 : fn2 := fun w => ((None, None), w).
Definition nilStream3 : fn3 := fun w => ((None, 42, None), w).
Definition helloStream2 : fn2 := fun w => ((Some (UserStream 0), None), w).
Definition helloStream3 : fn3 := fun w => ((Some (UserStream 0), 5, None), w).

(** The request [setRequestBody] leaves for an absent body. *)
Definition noBodyRequest : Request := mkRequest 0 (Some NoBody) None.

Definition onceFailingMiddleware : bodyMiddleware :=
  mw (Some (VRequestBody (RequestBodyStreamOnce (InF2 (Some failingStream2))))) None None.

(** The bytes [buffer.Bytes()] denotes in [w], for a live buffer: what the
    buffer holds unread. *)
Definition bufferUnread (w : World) (buffer : ptr) : option (list byte) :=
  match deref w buffer with
  | Some (BytesBuffer buf off) => Some (inmemUnread w (BytesBuffer buf off))
  | _ => None
  end.

(** ** A transport that may panic *)

Module Panicking.

(** A transport that returns, as one that may panic. *)
Definition returning (next : Request -> World -> (option Response * option error) * World)
  : Request -> World -> res (option Response * option error) * World :=
  fun req w => let (x, w') := next req w in (Val x, w').

(** [http.RoundTripper], whose [RoundTrip] either returns or panics; a nil
    transport is one that panics at once. *)
Definition RoundTripper :=
  Request -> World -> res (option Response * option error) * World.

Definition callTransport (next : RoundTripper) (req : Request)
  : M (option Response * option error) :=
  fun s => let (r, w') := next req (world s) in (r, mkState w' (trace s)).

(** [bodyMiddleware.RoundTrip] over such a transport: [cleanup()] follows
    the call of the transport without a [defer]. *)
Definition RoundTrip (b : bodyMiddleware) (req : Request) (next : RoundTripper)
  : M (option Response * option error) :=
  '(cleanup, err, req') <- bm_setRequestBody b req ;;
  match err with
  | Some e => ret (None, Some e)
  | None =>
      emit EvTransport ;;;
      '(resp, respErr) <- callTransport next req' ;;
      callCleanup cleanup ;;;
      e <- readResponse b resp respErr ;;
      match e with
      | Some e' => ret (None, Some e')
      | None => ret (resp, None)
      end
  end.


End Panicking.

(** * conjure-go-contract/errors: the registry of error types *)

Module errors.

(** A [reflect.Type], as far as the registry looks at it: its name and
    whether the pointer to it implements the [Error] interface. *)
Record rtype := mkType { typeName : string; ptrImplementsError : bool }.

(** The errors the registry and the decoder build. *)
Inductive failure :=
| AlreadyRegistered (name : string) (existing : rtype)
| NotErrorType (typ : rtype)
| UnmarshalFailed (typ : string) (cause : nat)
| NotErrorInstance (typ : string)
| NotConjureError (cause : nat).

(** [map[string]reflect.Type]; a key is bound at most once. *)
Definition registry := list (string * rtype).

Fixpoint lookup (name : string) (reg : registry) : option rtype :=
  match reg with
  | [] => None
  | (k, v) :: rest => if String.eqb k name then Some v else lookup name rest
  end.

(** [NewReflectTypeConjureErrorDecoder]: an empty registry. *)
Definition NewReflectTypeConjureErrorDecoder : registry := [].

(** [ReflectTypeConjureErrorDecoder.RegisterErrorType]: the registry as
    it is left, and the error. *)
Definition RegisterErrorType (d : registry) (name : string) (typ : rtype)
  : registry * option failure :=
  match lookup name d with
  | Some existing => (d, Some (AlreadyRegistered name existing))
  | None =>
      if negb (ptrImplementsError typ) then (d, Some (NotErrorType typ))
      else ((name, typ) :: d, None)
  end.

(** The package function [RegisterErrorType] on the global registry: it
    panics with the method's error. *)
Definition RegisterErrorTypeGlobal (globalRegistry : registry) (name : string)
  (typ : rtype) : res registry :=
  match RegisterErrorType globalRegistry name typ with
  | (_, Some _) => Panic
  | (d, None) => Val d
  end.

(** What [codecs.JSON.Unmarshal(body, &instance)] leaves in [instance],
    which held a fresh pointer to the type: an error, the nil interface, or
    the pointer with the decoded fields. *)
Inductive unmarshalled :=
| UError (cause : nat)
| UNil
| UValue (fields : list byte).

(** A decoded conjure error: its Go type and its fields. *)
Record Error := mkError { errType : rtype; errFields : list byte }.

Section Decode.

(** [codecs.JSON.Unmarshal] and the type [genericError] are declared
    elsewhere. *)
Variable jsonUnmarshal : list byte -> rtype -> unmarshalled.
Variable genericError : rtype.

(** [ReflectTypeConjureErrorDecoder.DecodeConjureError]. *)
Definition DecodeConjureError (d : registry) (errorName : string) (body : list byte)
  : option Error * option failure :=
  let typ := match lookup errorName d with
             | Some t => t
             | None => genericError
             end in
  match jsonUnmarshal body typ with
  | UError cause => (None, Some (UnmarshalFailed (typeName typ) cause))
  | UNil => (None, Some (NotErrorInstance (typeName typ)))
  | UValue fields =>
      if ptrImplementsError typ then (Some (mkError typ fields), None)
      else (None, Some (NotErrorInstance (typeName typ)))
  end.

(** [UnmarshalErrorWithDecoder]: the body is unmarshalled once for its
    [errorName], a field that stays empty when the body has none, then
    handed to the decoder.  [jsonName] is [codecs.JSON.Unmarshal] into the
    name struct and [werrorConvert] is [werror.Convert]; a decoder is its
    method [DecodeConjureError]. *)
Variable jsonName : list byte -> string * option nat.
Variable werrorConvert : failure -> failure.

Definition UnmarshalErrorWithDecoder
  (ced : string -> list byte -> option Error * option failure) (body : list byte)
  : option Error * option failure :=
  match jsonName body with
  | (_, Some cause) => (None, Some (NotConjureError cause))
  | (name, None) =>
      match ced name body with
      | (_, Some err) => (None, Some (werrorConvert err))
      | (cErr, None) => (cErr, None)
      end
  end.

(** [UnmarshalError], on the global registry. *)
Definition UnmarshalError (globalRegistry : registry) (body : list byte)
  : option Error * option failure :=
  UnmarshalErrorWithDecoder (DecodeConjureError globalRegistry) body.

End Decode.

(** Registering a list of (name, type) pairs in order, stopping at the first
    error. *)
Fixpoint registerAll (d : registry) (l : list (string * rtype))
  : registry * option failure :=
  match l with
  | [] => (d, None)
  | (name, typ) :: rest =>
      match RegisterErrorType d name typ with
      | (d', None) => registerAll d' rest
      | (d', Some e) => (d', Some e)
      end
  end.

(** Registering a list of (name, type) pairs in order, going on after an
    error: the errors are collected, in order. *)
Fixpoint registerEach (d : registry) (l : list (string * rtype))
  : registry * list failure :=
  match l with
  | [] => (d, [])
  | (name, typ) :: rest =>
      match RegisterErrorType d name typ with
      | (d', None) => registerEach d' rest
      | (d', Some e) =>
          let (d'', es) := registerEach d' rest in (d'', e :: es)
      end
  end.

(** The first type in [l] registered under [name] whose pointer implements
    [Error]. *)
Fixpoint firstErrorType (name : string) (l : list (string * rtype)) : option rtype :=
  match l with
  | [] => None
  | (k, typ) :: rest =>
      if String.eqb k name && ptrImplementsError typ then Some typ
      else firstErrorType name rest
  end.

(** The registry's invariant: names are bound once and every registered
    type's pointer implements [Error]. *)
Definition wellFormed (d : registry) : Prop :=
  NoDup (map fst d) /\ Forall (fun kv => ptrImplementsError (snd kv) = true) d.

(** Test data. *)
Definition notFound : rtype := mkType "NotFound" true.
Definition conflict : rtype := mkType "Conflict" true.
Definition plainStruct : rtype := mkType "PlainStruct" false.
Definition generic : rtype := mkType "genericError" true.
Definition echoUnmarshal : list byte -> rtype -> unmarshalled :=
  fun body _ => match body with [] => UNil | _ => UValue body end.
Definition notFoundName : list byte -> string * option nat :=
  fun body => match body with [] => (""%string, Some 1%nat) | _ => ("NotFound"%string, None) end.

End errors.

(** * refreshingclient: refreshable TLS configuration *)

Module refreshingclient.

Section TLS.

(** What a [*tls.Config] points to; the nil pointer is [None]. *)
Variable tlsConfig : Type.

(** A consumer function acts on the state [W] of its owner and may
    panic; the nil function is [None]. *)
Definition consumer (W : Type) : Type :=
  option (option tlsConfig -> W -> res unit * W).

(** [MappedRefreshableTLSConfig]: the stored pointer and the subscribers
    in the order of the slice. *)
Record MappedRefreshableTLSConfig (W : Type) := mkMapped {
  conf : option tlsConfig;
  subscribers : list (consumer W)
}.
Arguments mkMapped {W} _ _.
Arguments conf {W} _.
Arguments subscribers {W} _.

(** [var m MappedRefreshableTLSConfig]: the zero value. *)
Definition zeroMapped {W} : MappedRefreshableTLSConfig W := mkMapped None [].

Definition Mapped_GetTLSConfig {W} (m : MappedRefreshableTLSConfig W)
  : option tlsConfig := conf m.

(** The loop of [update]: each subscriber is called with the new
    configuration; calling a nil function panics, and a panic ends the
    loop. *)
Fixpoint notify {W} (subs : list (consumer W)) (c : option tlsConfig) (w : W)
  : res unit * W :=
  match subs with
  | [] => (Val tt, w)
  | None :: _ => (Panic, w)
  | Some sub :: rest =>
      match sub c w with
      | (Val _, w') => notify rest c w'
      | (Panic, w') => (Panic, w')
      end
  end.

(** [update]: the pointer is stored first, then the subscribers are
    called. *)
Definition Mapped_update {W} (m : MappedRefreshableTLSConfig W)
  (c : option tlsConfig) (w : W) : MappedRefreshableTLSConfig W * (res unit * W) :=
  (mkMapped c (subscribers m), notify (subscribers m) c w).

(** [SubscribeToTLSConfig]: the consumer is appended; the function
    returned does nothing. *)
Definition Mapped_SubscribeToTLSConfig {W} (consumer0 : consumer W)
  (m : MappedRefreshableTLSConfig W)
  : option (MappedRefreshableTLSConfig W -> MappedRefreshableTLSConfig W)
    * MappedRefreshableTLSConfig W :=
  (Some (fun m' => m'), mkMapped (conf m) (subscribers m ++ [consumer0])).

(** [StaticTLSConfigProvider] is the configuration itself. *)
Definition StaticTLSConfigProvider : Type := option tlsConfig.

Definition NewStaticTLSConfigProvider (c : option tlsConfig)
  : StaticTLSConfigProvider := c.

Definition Static_GetTLSConfig (p : StaticTLSConfigProvider) : option tlsConfig := p.

(** The consumer is dropped and the nil function is returned. *)
Definition Static_SubscribeToTLSConfig {W} (consumer0 : consumer W)
  (p : StaticTLSConfigProvider)
  : option (StaticTLSConfigProvider -> StaticTLSConfigProvider)
    * StaticTLSConfigProvider :=
  (None, p).

(** The interface [RefreshableTLSConf], for an implementation with state
    [R] whose consumers act on [W]. *)
Record RefreshableTLSConf (R W : Type) := mkRefreshableTLSConf {
  GetTLSConfig : R -> option tlsConfig;
  SubscribeToTLSConfig : consumer W -> R -> option (R -> R) * R
}.
Arguments GetTLSConfig {R W} _ _.
Arguments SubscribeToTLSConfig {R W} _ _ _.

Definition MappedConf (W : Type)
  : RefreshableTLSConf (MappedRefreshableTLSConfig W) W :=
  mkRefreshableTLSConf _ _ Mapped_GetTLSConfig Mapped_SubscribeToTLSConfig.

Definition StaticConf (W : Type) : RefreshableTLSConf StaticTLSConfigProvider W :=
  mkRefreshableTLSConf _ _ Static_GetTLSConfig Static_SubscribeToTLSConfig.

(** The closure [func(c) { m.update(mapFn(c)) }] of [ConfigureTLSConfig]:
    it acts on [m] and on the state of [m]'s own subscribers. *)
Definition updateMapped {W} (mapFn : option tlsConfig -> option tlsConfig)
  : consumer (MappedRefreshableTLSConfig W * W) :=
  Some (fun c mw =>
          let '(m', (r, w')) := Mapped_update (fst mw) (mapFn c) (snd mw) in
          (r, (m', w'))).

(** [ConfigureTLSConfig]: [r] with the closure subscribed, and the new
    [m], whose address is returned. *)
Definition ConfigureTLSConfig {R W}
  (I : RefreshableTLSConf R (MappedRefreshableTLSConfig W * W)) (r : R)
  (mapFn : option tlsConfig -> option tlsConfig)
  : R * MappedRefreshableTLSConfig W :=
  let m := zeroMapped in
  let '(_, r') := SubscribeToTLSConfig I (updateMapped mapFn) r in
  (r', m).

(** A consumer that appends its number and what it was given to a log. *)
Definition logger (i : nat) : consumer (list (nat * option tlsConfig)) :=
  Some (fun c log => (Val tt, log ++ [(i, c)])).

(** [subscribeAll cs m]: the consumers are subscribed one after the other;
    each function returned is called at once. *)
Fixpoint subscribeAll {W} (cs : list (consumer W)) (m : MappedRefreshableTLSConfig W)
  : MappedRefreshableTLSConfig W :=
  match cs with
  | [] => m
  | c :: rest =>
      match Mapped_SubscribeToTLSConfig c m with
      | (Some unsubscribe, m') => subscribeAll rest (unsubscribe m')
      | (None, m') => subscribeAll rest m'
      end
  end.

End TLS.

Arguments mkMapped {tlsConfig W} _ _.
Arguments conf {tlsConfig W} _.
Arguments subscribers {tlsConfig W} _.
Arguments zeroMapped {tlsConfig W}.
Arguments Mapped_GetTLSConfig {tlsConfig W} _.
Arguments notify {tlsConfig W} _ _ _.
Arguments Mapped_update {tlsConfig W} _ _ _.
Arguments Mapped_SubscribeToTLSConfig {tlsConfig W} _ _.
Arguments NewStaticTLSConfigProvider {tlsConfig} _.
Arguments Static_GetTLSConfig {tlsConfig} _.
Arguments Static_SubscribeToTLSConfig {tlsConfig W} _ _.
Arguments GetTLSConfig {tlsConfig R W} _ _.
Arguments SubscribeToTLSConfig {tlsConfig R W} _ _ _.
Arguments updateMapped {tlsConfig W} _.
Arguments ConfigureTLSConfig {tlsConfig R W} _ _ _.
Arguments logger {tlsConfig} _.
Arguments subscribeAll {tlsConfig W} _ _.

(** [TLSParams]. *)
Record TLSParams := mkTLSParams {
  CAFiles : list string;
  CertFile : string;
  KeyFile : string;
  InsecureSkipVerify : bool
}.

(** The [tlsconfig.ClientParam] values [NewTLSConfig] builds. *)
Inductive ClientParam :=
| ClientRootCAFiles (files : list string)
| ClientKeyPairFiles (certFile keyFile : string)
| ClientInsecureSkipVerify.

(** The slice [tlsParams] of [NewTLSConfig]. *)
Definition tlsParams (p : TLSParams) : list ClientParam :=
  (match CAFiles p with [] => [] | _ => [ClientRootCAFiles (CAFiles p)] end)
  ++ (if negb (String.eqb (CertFile p) "") && negb (String.eqb (KeyFile p) "")
      then [ClientKeyPairFiles (CertFile p) (KeyFile p)] else [])
  ++ (if InsecureSkipVerify p then [ClientInsecureSkipVerify] else []).

Inductive tlsError :=
| FailedToBuildTLSConfig (cause : nat).

(** [NewTLSConfig], over [tlsconfig.NewClientConfig], which is declared
    elsewhere. *)
Definition NewTLSConfig {tlsConfig : Type}
  (NewClientConfig : list ClientParam -> option tlsConfig * option nat)
  (p : TLSParams) : option tlsConfig * option tlsError :=
  match NewClientConfig (tlsParams p) with
  | (_, Some err) => (None, Some (FailedToBuildTLSConfig err))
  | (c, None) => (c, None)
  end.

(** Test data. *)
Definition countingConsumer : consumer nat nat :=
  Some (fun c w => (Val tt, match c with Some k => (w + k)%nat | None => w end)).
Definition certOnly : TLSParams := mkTLSParams [] "cert.pem" "" false.
Definition paramCount : list ClientParam -> option nat * option nat :=
  fun ps => (Some (List.length ps), None).

End refreshingclient.

(** ** Running the monad *)

Lemma bind_val {A B} (m : M A) (k : A -> M B) s a s' :
  m s = (Val a, s') -> bind m k s = k a s'.
Proof. intros H. unfold bind. now rewrite H. Qed.

Lemma bind_panic {A B} (m : M A) (k : A -> M B) s s' :
  m s = (Panic, s') -> bind m k s = (Panic, s').
Proof. intros H. unfold bind. now rewrite H. Qed.

Lemma bind_ret {A B} (a : A) (k : A -> M B) s : bind (ret a) k s = k a s.
Proof. reflexivity. Qed.

Lemma liftW_run {A} (f : World -> A * World) s a w' :
  f (world s) = (a, w') -> liftW f s = (Val a, mkState w' (trace s)).
Proof. intros H. unfold liftW. now rewrite H. Qed.

Lemma state_eta s : mkState (world s) (trace s) = s.
Proof. now destruct s. Qed.

(** ** The tests of the package, on a world holding the bytes "hello" *)

Example TestContentLengthInMemory :
  contentLengthInMemory helloWorld (Some 0%nat) = Some 5 /\
  contentLengthInMemory helloWorld (Some 1%nat) = Some 5 /\
  contentLengthInMemory helloWorld (Some 2%nat) = Some 5.
Proof. repeat split. Qed.

Example TestRetrieve_InMemory :
  retrieved (RequestBodyInMemory (Some 0%nat)) helloState = Val (hello, 5, None) /\
  retrieved (RequestBodyInMemory (Some 1%nat)) helloState = Val (hello, 5, None) /\
  retrieved (RequestBodyInMemory (Some 2%nat)) helloState = Val (hello, 5, None) /\
  retrieved RequestBodyEmpty helloState = Val ([], 0, None).
Proof. repeat split. Qed.

Example TestRetrieve_Stream :
  retrieved (RequestBodyStreamOnce (InF1 (Some helloStream))) helloState = Val (hello, -1, None) /\
  retrieved (RequestBodyStreamOnce (InF1 (Some nilStream))) helloState = Val ([], 0, None) /\
  retrieved (RequestBodyStreamWithReplay (InF1 (Some helloStream))) helloState = Val (hello, -1, None) /\
  retrieved (RequestBodyStreamWithReplay (InF1 (Some nilStream))) helloState = Val ([], 0, None).
Proof. repeat split. Qed.

(** ** requestBodyFunc.setRequestBody *)

(** C9. Whenever the body function returns a nil body with a nil error,
    [setRequestBody] sets Body = http.NoBody, ContentLength = 0 and
    GetBody = nil, whatever length and replay function were returned;
    whenever it returns a non-nil error, [setRequestBody] returns that error
    and leaves the request as it was; so after a successful [setRequestBody]
    the Body field is never nil. *)
Theorem setRequestBody_normalizes (f : requestBodyFunc) (req : Request) (s : state) :
  (forall l gb s',
      f s = (Val (mkBodyResult l None gb None), s') ->
      requestBodyFunc_setRequestBody f req s
      = (Val (mkRequest 0 (Some NoBody) None, None), s'))
  /\ (forall r e s',
      f s = (Val r, s') -> br_err r = Some e ->
      requestBodyFunc_setRequestBody f req s = (Val (req, Some e), s'))
  /\ (forall req' s',
      requestBodyFunc_setRequestBody f req s = (Val (req', None), s') ->
      Body req' <> None).
Proof.
  repeat split.
  - intros l gb s' Hf. unfold requestBodyFunc_setRequestBody.
    now rewrite (bind_val _ _ _ _ _ Hf).
  - intros r e s' Hf He. unfold requestBodyFunc_setRequestBody.
    rewrite (bind_val _ _ _ _ _ Hf). now rewrite He.
  - intros req' s'. unfold requestBodyFunc_setRequestBody, bind.
    destruct (f s) as [[r|] s1]; [|discriminate].
    destruct (br_err r); [discriminate|].
    destruct (br_body r); unfold ret; intros H; inversion H; discriminate.
Qed.

Lemma setRequestBody_normalizes_witness :
  requestBodyFunc_setRequestBody nilBodyWithLength usedRequest helloState
  = (Val (mkRequest 0 (Some NoBody) None, None), helloState)
  /\ requestBodyFunc_setRequestBody failingBody usedRequest helloState
     = (Val (usedRequest, Some (ErrOther 1)), helloState)
  /\ Body (mkRequest 0 (Some NoBody) None) <> None.
Proof.
  split; [|split].
  - apply (proj1 (setRequestBody_normalizes nilBodyWithLength usedRequest helloState)
             7 (Some (ret (Some NoBody, None))) helloState).
    reflexivity.
  - apply (proj1 (proj2 (setRequestBody_normalizes failingBody usedRequest helloState))
             (mkBodyResult 7 (Some NoBody) None (Some (ErrOther 1))) (ErrOther 1) helloState);
      reflexivity.
  - apply (proj2 (proj2 (setRequestBody_normalizes nilBodyWithLength usedRequest helloState))
             (mkRequest 0 (Some NoBody) None) helloState).
    reflexivity.
Defined.

(** ** The retry-safety marker *)

Lemma noRetries_constructors input p v enc buf :
  isNoRetries (RequestBodyStreamOnce input) = true
  /\ isNoRetries RequestBodyEmpty = false
  /\ isNoRetries (RequestBodyInMemory p) = false
  /\ isNoRetries (RequestBodyStreamWithReplay input) = false
  /\ isNoRetries (RequestBodyEncoderObject v enc) = false
  /\ isNoRetries (RequestBodyEncoderObjectBuffer v enc buf) = false.
Proof. repeat split. Qed.

(** A stream-once closure never returns a replay function. *)
Lemma streamOnceFunc_no_getBody x s r s' :
  streamOnceFunc x s = (Val r, s') -> br_getBody r = None.
Proof.
  destruct x as [[[v|]|[v|]|[v|]|ty]|]; simpl; unfold bind, panic, ret, liftW;
    try discriminate.
  - destruct (v (world s)) as [body w']. intros H; inversion H; reflexivity.
  - destruct (v (world s)) as [[body err] w']. intros H; inversion H; reflexivity.
  - destruct (v (world s)) as [[[body l] err] w']. intros H; inversion H; reflexivity.
  - intros H; inversion H; reflexivity.
  - intros H; inversion H; reflexivity.
Qed.

(** C10. [bodyMiddleware.noRetriesRequestBody] returns true if and only if
    the request encoder is nil, the request input is non-nil and its dynamic
    type is noRetriesRequestBody, the wrapper that only
    [RequestBodyStreamOnce] produces: encoder-backed, empty, in-memory and
    stream-with-replay bodies are reported as retry-safe, and a body built by
    [RequestBodyStreamOnce] leaves the request's GetBody nil. *)
Theorem noRetriesRequestBody_iff (b : bodyMiddleware) :
  (noRetriesRequestBody b = true <->
     requestEncoder b = None
     /\ exists f, requestInput b = Some (VRequestBody (RBNoRetries f)))
  /\ (forall enc, requestEncoder b = Some enc -> noRetriesRequestBody b = false)
  /\ (requestInput b = None -> noRetriesRequestBody b = false)
  /\ (requestInput b = Some (VRequestBody RequestBodyEmpty) ->
      noRetriesRequestBody b = false)
  /\ (forall p, requestInput b = Some (VRequestBody (RequestBodyInMemory p)) ->
      noRetriesRequestBody b = false)
  /\ (forall input,
      requestInput b = Some (VRequestBody (RequestBodyStreamWithReplay input)) ->
      noRetriesRequestBody b = false)
  /\ (forall v enc buf,
      requestInput b = Some (VRequestBody (RequestBodyEncoderObject v enc))
      \/ requestInput b = Some (VRequestBody (RequestBodyEncoderObjectBuffer v enc buf)) ->
      noRetriesRequestBody b = false)
  /\ (forall input,
      requestEncoder b = None ->
      requestInput b = Some (VRequestBody (RequestBodyStreamOnce input)) ->
      noRetriesRequestBody b = true)
  /\ (forall input req s req' err s',
      setRequestBody (RequestBodyStreamOnce input) req s = (Val (req', err), s') ->
      (err = None -> GetBody req' = None)
      /\ (GetBody req = None -> GetBody req' = None)).
Proof.
  unfold noRetriesRequestBody.
  split; [|split; [|split; [|split; [|split; [|split; [|split; [|split]]]]]]].
  - destruct (requestEncoder b) as [enc|]; [split; [discriminate|intros [H _]; discriminate]|].
    destruct (requestInput b) as [[[f|f]|ty d]|]; split; try discriminate;
      try (intros [_ [f' H]]; discriminate).
    + intros _. split; [reflexivity|]. now exists f.
    + reflexivity.
  - intros enc ->. reflexivity.
  - intros ->. now destruct (requestEncoder b).
  - intros ->. now destruct (requestEncoder b).
  - intros p ->. now destruct (requestEncoder b).
  - intros input ->. now destruct (requestEncoder b).
  - intros v enc buf [-> | ->]; now destruct (requestEncoder b).
  - intros input -> ->. reflexivity.
  - intros input req s req' err s'. simpl.
    unfold requestBodyFunc_setRequestBody, bind.
    destruct (streamOnceFunc (any_of input) s) as [[r|] s1] eqn:Hf; [|discriminate].
    pose proof (streamOnceFunc_no_getBody _ _ _ _ Hf) as Hgb.
    destruct (br_err r).
    + unfold ret. intros H; inversion H; subst. split; [discriminate|trivial].
    + destruct (br_body r); unfold ret; intros H; inversion H; subst; simpl; auto.
Qed.

Lemma noRetriesRequestBody_iff_witness :
  noRetriesRequestBody onceMiddleware = true
  /\ noRetriesRequestBody encodedOnceMiddleware = false
  /\ GetBody (mkRequest (-1) (Some (UserStream 0)) None) = None.
Proof.
  split; [|split].
  - apply (proj1 (proj2 (proj2 (proj2 (proj2 (proj2 (proj2 (proj2
             (noRetriesRequestBody_iff onceMiddleware))))))))
             (InF1 (Some helloStream))); reflexivity.
  - apply (proj1 (proj2 (noRetriesRequestBody_iff encodedOnceMiddleware)) failingEncoder).
    reflexivity.
  - apply (proj2 (proj2 (proj2 (proj2 (proj2 (proj2 (proj2 (proj2
             (noRetriesRequestBody_iff onceMiddleware))))))))
             (InF1 (Some helloStream)) emptyRequest helloState
             (mkRequest (-1) (Some (UserStream 0)) None) None helloState);
      reflexivity.
Defined.

(** ** The type switch of the stream constructors *)

(** The constraint [requestBodyStreamInput] admits the three function
    types only, so the interface value the type switch inspects never has
    another dynamic type and is never the nil interface: from the
    constructors the default branch is not reached.  What it would return,
    were the switch to see another type, is the "unexpected type" error as
    the result of [setRequestBody], with the request left as it was. *)
Lemma stream_unexpected_type_at_materialization (ty : string) (req : Request) (s : state) :
  setRequestBody (RBNoRetries (streamOnceFunc (Some (DynOther ty)))) req s
  = (Val (req, Some (ErrUnexpectedType "httpclient.RequestBodyStreamOnce" ty)), s)
  /\ setRequestBody (RBFunc (streamWithReplayFunc (Some (DynOther ty)))) req s
     = (Val (req, Some (ErrUnexpectedType "httpclient.RequestBodyStreamWithReplay" ty)), s)
  /\ (forall input, any_of input <> Some (DynOther ty) /\ any_of input <> None).
Proof.
  repeat split; destruct input; discriminate.
Qed.

(** The [case nil] branch of the switch gives the empty body, but only the
    nil interface reaches it. *)
Lemma stream_nil_interface_is_empty req s :
  setRequestBody (RBNoRetries (streamOnceFunc None)) req s
  = (Val (mkRequest 0 (Some NoBody) None, None), s)
  /\ setRequestBody (RBFunc (streamWithReplayFunc None)) req s
     = (Val (mkRequest 0 (Some NoBody) None, None), s).
Proof. split; reflexivity. Qed.

(** C6 fails on the code.  A nil factory of one of the three function types
    is not the nil interface: the type switch takes the branch of its
    function type and calls the nil function, so materializing the body
    panics instead of producing the empty body. *)
Theorem stream_nil_factory_panics (req : Request) (s : state) :
  setRequestBody (RequestBodyStreamOnce (InF1 None)) req s = (Panic, s)
  /\ setRequestBody (RequestBodyStreamOnce (InF2 None)) req s = (Panic, s)
  /\ setRequestBody (RequestBodyStreamOnce (InF3 None)) req s = (Panic, s)
  /\ setRequestBody (RequestBodyStreamWithReplay (InF1 None)) req s = (Panic, s)
  /\ setRequestBody (RequestBodyStreamWithReplay (InF2 None)) req s = (Panic, s)
  /\ setRequestBody (RequestBodyStreamWithReplay (InF3 None)) req s = (Panic, s).
Proof. repeat split. Qed.

(** ** bodyMiddleware.setRequestBody *)

Lemma poolGet_run pool s buf w1 :
  Get pool (world s) = (buf, w1) ->
  poolGet pool s = (Val buf, mkState w1 (trace s ++ [EvPoolGet buf])).
Proof.
  intros Hg. unfold poolGet, bind. now rewrite (liftW_run _ _ _ _ Hg).
Qed.

Lemma poolPut_run pool buf s :
  poolPut pool buf s
  = (Val tt, mkState (snd (Put pool buf (world s))) (trace s ++ [EvPoolPut buf])).
Proof.
  unfold poolPut, bind, emit, liftW. simpl.
  destruct (Put pool buf (world s)) as [[] w']. reflexivity.
Qed.

(** C2. [bodyMiddleware.setRequestBody] decides in this order: a nil
    requestInput gives the empty body (whatever encoder and pool are
    configured); else a configured requestEncoder gives the encoder-produced
    body, written into a buffer taken from the pool when a pool is
    configured, else allocated by the encoder; else a requestInput that is a
    RequestBody is used directly; otherwise [RoundTrip] returns the
    configuration error and the next transport stage is never invoked. *)
Theorem bm_setRequestBody_decision_order (b : bodyMiddleware) (req : Request) (s : state) :
  (requestInput b = None ->
     bm_setRequestBody b req s
     = (Val (Some (ret tt), None, mkRequest 0 (Some NoBody) None), s))
  /\ (forall input encoder pool buf w1,
      requestInput b = Some input -> requestEncoder b = Some encoder ->
      bufferPool b = Some pool -> Get pool (world s) = (buf, w1) ->
      bm_setRequestBody b req s
      = ('(req', err) <- setRequestBody (RequestBodyEncoderObjectBuffer input encoder buf) req ;;
         ret (Some (poolPut pool buf), err, req'))
          (mkState w1 (trace s ++ [EvPoolGet buf])))
  /\ (forall input encoder,
      requestInput b = Some input -> requestEncoder b = Some encoder ->
      bufferPool b = None ->
      bm_setRequestBody b req s
      = ('(req', err) <- setRequestBody (RequestBodyEncoderObject input encoder) req ;;
         ret (Some (ret tt), err, req')) s)
  /\ (forall body,
      requestInput b = Some (VRequestBody body) -> requestEncoder b = None ->
      bm_setRequestBody b req s
      = ('(req', err) <- setRequestBody body req ;;
         ret (Some (ret tt), err, req')) s)
  /\ (forall ty data next,
      requestInput b = Some (VOther ty data) -> requestEncoder b = None ->
      RoundTrip b req next s = (Val (None, Some (ErrNotRequestBody ty)), s)).
Proof.
  split; [|split; [|split; [|split]]].
  - intros H. unfold bm_setRequestBody. rewrite H. reflexivity.
  - intros input encoder pool buf w1 Hi He Hp Hg. unfold bm_setRequestBody.
    rewrite Hi, He, Hp.
    now rewrite (bind_val _ _ _ _ _ (poolGet_run _ _ _ _ Hg)).
  - intros input encoder Hi He Hp. unfold bm_setRequestBody.
    rewrite Hi, He, Hp. reflexivity.
  - intros body Hi He. unfold bm_setRequestBody. rewrite Hi, He. reflexivity.
  - intros ty data next Hi He. unfold RoundTrip, bm_setRequestBody.
    rewrite Hi, He. reflexivity.
Qed.

Lemma bm_setRequestBody_decision_order_witness :
  bm_setRequestBody (mw None (Some failingEncoder) (Some fixedPool)) usedRequest helloState
  = (Val (Some (ret tt), None, mkRequest 0 (Some NoBody) None), helloState)
  /\ bm_setRequestBody (mw (Some otherValue) (Some failingEncoder) (Some fixedPool))
                       usedRequest helloState
     = (Val (Some (poolPut fixedPool 0%nat), Some (ErrOther 2), usedRequest),
        mkState helloWorld [EvPoolGet 0%nat; EvEncode 0%nat])
  /\ bm_setRequestBody (mw (Some otherValue) (Some failingEncoder) None)
                       usedRequest helloState
     = (Val (Some (ret tt), Some (ErrOther 2), usedRequest), mkState helloWorld [EvMarshal])
  /\ bm_setRequestBody onceMiddleware usedRequest helloState
     = (Val (Some (ret tt), None, mkRequest (-1) (Some (UserStream 0)) None), helloState)
  /\ RoundTrip (mw (Some otherValue) None None) usedRequest okTransport helloState
     = (Val (None, Some (ErrNotRequestBody "map[string]string")), helloState).
Proof.
  split; [|split; [|split; [|split]]].
  - apply (proj1 (bm_setRequestBody_decision_order _ usedRequest helloState)).
    reflexivity.
  - rewrite (proj1 (proj2 (bm_setRequestBody_decision_order _ usedRequest helloState))
               otherValue failingEncoder fixedPool 0%nat helloWorld);
      reflexivity.
  - rewrite (proj1 (proj2 (proj2 (bm_setRequestBody_decision_order _ usedRequest helloState)))
               otherValue failingEncoder);
      reflexivity.
  - rewrite (proj1 (proj2 (proj2 (proj2
               (bm_setRequestBody_decision_order onceMiddleware usedRequest helloState))))
               (RequestBodyStreamOnce (InF1 (Some helloStream))));
      reflexivity.
  - apply (proj2 (proj2 (proj2 (proj2
             (bm_setRequestBody_decision_order _ usedRequest helloState))))
             "map[string]string"%string hello okTransport);
      reflexivity.
Defined.

(** ** bodyMiddleware.RoundTrip and readResponse *)

(** Once the request body is set, [RoundTrip] calls the transport on the
    request as [setRequestBody] left it, then the cleanup, then
    [readResponse]. *)
Lemma RoundTrip_after_setRequestBody b req next s cleanup req1 s1 resp respErr w2 :
  bm_setRequestBody b req s = (Val (cleanup, None, req1), s1) ->
  next req1 (world s1) = ((resp, respErr), w2) ->
  RoundTrip b req next s
  = (callCleanup cleanup ;;;
     e <- readResponse b resp respErr ;;
     match e with
     | Some e' => ret (None, Some e')
     | None => ret (resp, None)
     end) (mkState w2 (trace s1 ++ [EvTransport])).
Proof.
  intros Hset Hnext. unfold RoundTrip.
  rewrite (bind_val _ _ _ _ _ Hset). cbv beta iota.
  unfold bind at 1. unfold emit at 1. cbv beta iota.
  unfold bind at 1. unfold liftW at 1. cbn [world trace].
  rewrite Hnext. reflexivity.
Qed.

(** C3. [readResponse] evaluates in this order: with rawOutput set and no
    transport error the response is returned untouched and the decoder is not
    invoked; else a transport error is propagated without decoding; else
    with no output target, no response, no body or ContentLength 0 nothing
    is decoded and no error is returned; otherwise the decoder is invoked and
    its failure is the failure of the exchange: [RoundTrip] returns a nil
    response and the decode error. *)
Theorem readResponse_order (b : bodyMiddleware) (resp : option Response)
  (respErr : option error) (s : state) :
  (rawOutput b = true -> respErr = None ->
     readResponse b resp respErr s = (Val None, s))
  /\ (forall e, respErr = Some e ->
      readResponse b resp respErr s = (Val (Some e), s))
  /\ (respErr = None ->
      (responseOutput b = None \/ resp = None
       \/ exists r, resp = Some r /\ (RespBody r = None \/ RespContentLength r = 0)) ->
      readResponse b resp respErr s = (Val None, s))
  /\ (forall out r body d decErr w',
      rawOutput b = false -> respErr = None ->
      responseOutput b = Some out -> resp = Some r -> RespBody r = Some body ->
      RespContentLength r <> 0 -> responseDecoder b = Some d ->
      Decode d body out (world s) = (decErr, w') ->
      readResponse b resp respErr s
      = (Val decErr, mkState w' (trace s ++ [EvDecode])))
  /\ (forall req next s0 cleanup req1 s1 w2 s',
      bm_setRequestBody b req s0 = (Val (cleanup, None, req1), s1) ->
      next req1 (world s1) = ((resp, respErr), w2) ->
      callCleanup cleanup (mkState w2 (trace s1 ++ [EvTransport])) = (Val tt, s) ->
      (forall e, readResponse b resp respErr s = (Val (Some e), s') ->
                 RoundTrip b req next s0 = (Val (None, Some e), s'))
      /\ (readResponse b resp respErr s = (Val None, s') ->
          RoundTrip b req next s0 = (Val (resp, None), s'))).
Proof.
  split; [|split; [|split; [|split]]].
  - intros Hraw ->. unfold readResponse. now rewrite Hraw.
  - intros e ->. unfold readResponse. now rewrite andb_false_r.
  - intros -> Hskip. unfold readResponse. rewrite andb_true_r.
    destruct (rawOutput b); [reflexivity|].
    destruct Hskip as [-> | [-> | [r [-> [Hb | Hl]]]]].
    + reflexivity.
    + now destruct (responseOutput b).
    + destruct (responseOutput b); [|reflexivity]. now rewrite Hb.
    + destruct (responseOutput b); [|reflexivity].
      destruct (RespBody r); [|reflexivity]. now rewrite Hl.
  - intros out r body d decErr w' Hraw -> Hout -> Hbody Hlen Hdec Hrun.
    unfold readResponse. rewrite Hraw, Hout, Hbody, Hdec. cbn [andb].
    apply Z.eqb_neq in Hlen. rewrite Hlen.
    unfold bind, emit, liftW. cbn [world trace]. rewrite Hrun.
    now destruct decErr.
  - intros req next s0 cleanup req1 s1 w2 s' Hset Hnext Hclean.
    rewrite (RoundTrip_after_setRequestBody _ _ _ _ _ _ _ _ _ _ Hset Hnext).
    rewrite (bind_val _ _ _ _ _ Hclean).
    split.
    + intros e Hread. now rewrite (bind_val _ _ _ _ _ Hread).
    + intros Hread. now rewrite (bind_val _ _ _ _ _ Hread).
Qed.

Lemma readResponse_order_witness :
  readResponse (rmw true (Some 0%nat) (Some failingDecoder)) (Some okResponse) None helloState
  = (Val None, helloState)
  /\ readResponse (rmw true (Some 0%nat) (Some failingDecoder)) None (Some (ErrOther 4)) helloState
     = (Val (Some (ErrOther 4)), helloState)
  /\ readResponse (rmw false None (Some failingDecoder)) (Some okResponse) None helloState
     = (Val None, helloState)
  /\ readResponse (rmw false (Some 0%nat) (Some failingDecoder)) (Some okResponse) None helloState
     = (Val (Some (ErrOther 3)), mkState helloWorld [EvDecode])
  /\ RoundTrip (rmw false (Some 0%nat) (Some failingDecoder)) usedRequest okTransport helloState
     = (Val (None, Some (ErrOther 3)), mkState helloWorld [EvTransport; EvCleanup; EvDecode])
  /\ RoundTrip (rmw true (Some 0%nat) (Some failingDecoder)) usedRequest okTransport helloState
     = (Val (Some okResponse, None), afterCleanup).
Proof.
  split; [|split; [|split; [|split; [|split]]]].
  - apply (proj1 (readResponse_order _ (Some okResponse) None helloState)); reflexivity.
  - apply (proj1 (proj2 (readResponse_order _ None (Some (ErrOther 4)) helloState))
             (ErrOther 4)); reflexivity.
  - apply (proj1 (proj2 (proj2 (readResponse_order _ (Some okResponse) None helloState))));
      [reflexivity | left; reflexivity].
  - apply (proj1 (proj2 (proj2 (proj2
             (readResponse_order (rmw false (Some 0%nat) (Some failingDecoder))
                (Some okResponse) None helloState))))
             0%nat okResponse (UserStream 0) failingDecoder (Some (ErrOther 3)) helloWorld);
      try reflexivity.
    discriminate.
  - apply (proj1 (proj2 (proj2 (proj2 (proj2
             (readResponse_order (rmw false (Some 0%nat) (Some failingDecoder))
                (Some okResponse) None afterCleanup))))
             usedRequest okTransport helloState (Some (ret tt))
             (mkRequest 0 (Some NoBody) None) helloState helloWorld
             (mkState helloWorld [EvTransport; EvCleanup; EvDecode])
             eq_refl eq_refl eq_refl) (ErrOther 3)).
    reflexivity.
  - apply (proj2 (proj2 (proj2 (proj2 (proj2
             (readResponse_order (rmw true (Some 0%nat) (Some failingDecoder))
                (Some okResponse) None afterCleanup))))
             usedRequest okTransport helloState (Some (ret tt))
             (mkRequest 0 (Some NoBody) None) helloState helloWorld
             afterCleanup eq_refl eq_refl eq_refl)).
    reflexivity.
Defined.

(** ** The cleanup function *)

Lemma count_app p tr1 tr2 : count p (tr1 ++ tr2) = (count p tr1 + count p tr2)%nat.
Proof. unfold count. now rewrite filter_app, length_app. Qed.

(** The cleanup [bodyMiddleware.setRequestBody] returns is the empty
    function, or the return of the buffer it has just taken from the pool. *)
Lemma bm_setRequestBody_cleanup b req s cleanup err req1 s1 :
  bm_setRequestBody b req s = (Val (cleanup, err, req1), s1) ->
  (cleanup = None /\ err <> None /\ s1 = s)
  \/ cleanup = Some (ret tt)
  \/ exists pool buf, bufferPool b = Some pool /\ cleanup = Some (poolPut pool buf).
Proof.
  unfold bm_setRequestBody.
  destruct (requestInput b) as [input|].
  - destruct (requestEncoder b) as [enc|].
    + destruct (bufferPool b) as [pool|].
      * unfold bind at 1.
        destruct (poolGet pool s) as [[buf|] s0]; [|discriminate].
        unfold bind.
        destruct (setRequestBody _ req s0) as [[[req' e]|] s']; [|discriminate].
        unfold ret. intros H; inversion H; subst.
        right; right. now exists pool, buf.
      * unfold bind.
        destruct (setRequestBody _ req s) as [[[req' e]|] s']; [|discriminate].
        unfold ret. intros H; inversion H; subst. now right; left.
    + destruct (asRequestBody input) as [body|].
      * unfold bind.
        destruct (setRequestBody _ req s) as [[[req' e]|] s']; [|discriminate].
        unfold ret. intros H; inversion H; subst. now right; left.
      * unfold ret. intros H; inversion H; subst. left. repeat split. discriminate.
  - unfold bind.
    destruct (setRequestBody _ req s) as [[[req' e]|] s']; [|discriminate].
    unfold ret. intros H; inversion H; subst. now right; left.
Qed.

(** [readResponse] adds at most a decoder call to the trace. *)
Lemma readResponse_trace b resp respErr s r s' :
  readResponse b resp respErr s = (r, s') ->
  trace s' = trace s \/ trace s' = trace s ++ [EvDecode].
Proof.
  unfold readResponse.
  destruct (rawOutput b && _).
  - intros H; inversion H; now left.
  - destruct respErr; [intros H; inversion H; now left|].
    destruct (responseOutput b); [|intros H; inversion H; now left].
    destruct resp as [rsp|]; [|intros H; inversion H; now left].
    destruct (RespBody rsp); [|intros H; inversion H; now left].
    destruct (RespContentLength rsp =? 0); [intros H; inversion H; now left|].
    destruct (responseDecoder b) as [d|]; [|intros H; inversion H; now left].
    unfold bind, emit, liftW. cbn [world trace].
    destruct (Decode d r0 n (world s)) as [[e|] w'];
      intros H; inversion H; now right.
Qed.

Lemma RoundTrip_tail_trace b resp respErr s r s' :
  (e <- readResponse b resp respErr ;;
   match e with
   | Some e' => ret (None, Some e')
   | None => ret (resp, None)
   end) s = (r, s') ->
  trace s' = trace s \/ trace s' = trace s ++ [EvDecode].
Proof.
  unfold bind.
  destruct (readResponse b resp respErr s) as [[e|] s2] eqn:Hread;
    apply readResponse_trace in Hread.
  - destruct e; unfold ret; intros H; inversion H; subst; exact Hread.
  - intros H; inversion H; subst; exact Hread.
Qed.

(** On every path on which the request body was set, the transport is
    called once, the cleanup runs once, right after the transport returns,
    and a buffer taken from the pool is given back then. *)
Lemma RoundTrip_cleanup_after_transport b req next s cleanup req1 s1 r s' :
  bm_setRequestBody b req s = (Val (cleanup, None, req1), s1) ->
  RoundTrip b req next s = (r, s') ->
  exists rest,
    trace s' = trace s1 ++ [EvTransport; EvCleanup] ++ rest
    /\ count isCleanup rest = 0%nat /\ count isTransport rest = 0%nat
    /\ ((cleanup = Some (ret tt) /\ count isPoolPut rest = 0%nat)
        \/ (exists pool buf rest',
              bufferPool b = Some pool /\ cleanup = Some (poolPut pool buf)
              /\ rest = EvPoolPut buf :: rest' /\ count isPoolPut rest' = 0%nat)).
Proof.
  intros Hset.
  destruct (next req1 (world s1)) as [[resp respErr] w2] eqn:Hnext.
  rewrite (RoundTrip_after_setRequestBody _ _ _ _ _ _ _ _ _ _ Hset Hnext).
  destruct (bm_setRequestBody_cleanup _ _ _ _ _ _ _ Hset)
    as [[_ [Hne _]] | [-> | [pool [buf [Hpool ->]]]]]; [now elim Hne | |].
  - unfold callCleanup. unfold bind at 1. unfold bind at 1.
    unfold emit at 1. unfold ret at 1. cbn [world trace].
    intros Htail. apply RoundTrip_tail_trace in Htail. cbn [trace] in Htail.
    destruct Htail as [-> | ->]; [exists [] | exists [EvDecode]];
      rewrite <- !app_assoc; repeat split; left; split; reflexivity.
  - unfold callCleanup. unfold bind at 1. unfold bind at 1.
    unfold emit at 1. cbn [world trace].
    rewrite poolPut_run. cbn [world trace].
    intros Htail. apply RoundTrip_tail_trace in Htail. cbn [trace] in Htail.
    destruct Htail as [-> | ->];
      [exists [EvPoolPut buf] | exists [EvPoolPut buf; EvDecode]];
      rewrite <- !app_assoc; repeat split; right;
      [exists pool, buf, [] | exists pool, buf, [EvDecode]]; repeat split; assumption.
Qed.

(** C1 fails on the code.  When a pool is configured and the encoder
    returns an error, [setRequestBody] has already taken a buffer from the
    pool and hands back the cleanup that would return it, but [RoundTrip]
    returns the error at once: the trace gains the pool's Get and the
    encoder call only, the cleanup is not run, the buffer is not given back
    and the transport is not called. *)
Theorem RoundTrip_encoder_error_skips_cleanup (b : bodyMiddleware) (req : Request)
  (next : RoundTripper) (s : state) input enc pool buf w1 e w2 :
  requestInput b = Some input -> requestEncoder b = Some enc ->
  bufferPool b = Some pool ->
  Get pool (world s) = (buf, w1) ->
  Encode enc buf input w1 = (Some e, w2) ->
  bm_setRequestBody b req s
  = (Val (Some (poolPut pool buf), Some e, req),
     mkState w2 (trace s ++ [EvPoolGet buf; EvEncode buf]))
  /\ RoundTrip b req next s
     = (Val (None, Some e), mkState w2 (trace s ++ [EvPoolGet buf; EvEncode buf]))
  /\ count isPoolGet [EvPoolGet buf; EvEncode buf] = 1%nat
  /\ count isPoolPut [EvPoolGet buf; EvEncode buf] = 0%nat
  /\ count isCleanup [EvPoolGet buf; EvEncode buf] = 0%nat.
Proof.
  intros Hi He Hp Hg Henc.
  assert (Hset : bm_setRequestBody b req s
                 = (Val (Some (poolPut pool buf), Some e, req),
                    mkState w2 (trace s ++ [EvPoolGet buf; EvEncode buf]))).
  { unfold bm_setRequestBody. rewrite Hi, He, Hp.
    rewrite (bind_val _ _ _ _ _ (poolGet_run _ _ _ _ Hg)).
    cbn [setRequestBody RequestBodyEncoderObjectBuffer].
    unfold requestBodyFunc_setRequestBody, bind, emit, liftW.
    cbn [world trace]. rewrite Henc. cbn.
    now rewrite <- app_assoc. }
  split; [exact Hset|]. split; [|repeat split].
  unfold RoundTrip. now rewrite (bind_val _ _ _ _ _ Hset).
Qed.

Lemma RoundTrip_encoder_error_skips_cleanup_witness :
  RoundTrip (mw (Some otherValue) (Some failingEncoder) (Some fixedPool))
            usedRequest okTransport helloState
  = (Val (None, Some (ErrOther 2)), mkState helloWorld [EvPoolGet 0%nat; EvEncode 0%nat]).
Proof.
  apply (proj1 (proj2 (RoundTrip_encoder_error_skips_cleanup
                  (mw (Some otherValue) (Some failingEncoder) (Some fixedPool))
                  usedRequest okTransport helloState
                  otherValue failingEncoder fixedPool 0%nat helloWorld (ErrOther 2) helloWorld
                  eq_refl eq_refl eq_refl eq_refl eq_refl))).
Defined.

(** ** In-memory bodies *)

Lemma sliceBytes_length w s : sliceOk w s -> List.length (sliceBytes w s) = len s.
Proof.
  unfold sliceOk, sliceBytes. intros H.
  rewrite length_firstn, length_skipn. lia.
Qed.

Lemma sliceFrom_ok w s i : sliceOk w s -> (i <= len s)%nat -> sliceOk w (sliceFrom s i).
Proof. unfold sliceOk, sliceFrom. cbn. lia. Qed.

(** [Len()] is the number of bytes a fresh reader over the value yields. *)
Lemma inmemLen_unread w r :
  inmemOk w r -> inmemLen r = Z.of_nat (List.length (inmemUnread w r)).
Proof.
  destruct r as [buf off | s i | s i]; unfold inmemOk, inmemLen, inmemUnread.
  - intros [Hs Hoff]. rewrite sliceBytes_length by now apply sliceFrom_ok.
    unfold sliceFrom. cbn [len]. lia.
  - intros [Hs Hi]. destruct (Z.of_nat (len s) <=? i) eqn:E; [reflexivity|].
    apply Z.leb_gt in E.
    rewrite sliceBytes_length by (apply sliceFrom_ok; [assumption|lia]).
    unfold sliceFrom. cbn [len]. lia.
  - intros Hi. destruct (Z.of_nat (List.length s) <=? i) eqn:E; [reflexivity|].
    apply Z.leb_gt in E. rewrite length_skipn. lia.
Qed.

(** A replay function that returns a fixed stream and touches nothing can
    be called any number of times. *)
Lemma replay_const (gb : getBodyFunc) r :
  (forall s, gb s = (Val r, s)) ->
  forall n s, replay n gb s = (Val (repeat r n), s).
Proof.
  intros Hgb. induction n as [|n IH]; intros s; cbn [replay repeat].
  - reflexivity.
  - rewrite (bind_val _ _ _ _ _ (Hgb s)).
    now rewrite (bind_val _ _ _ _ _ (IH s)).
Qed.

(** What materializing an in-memory body does: it reads [*input] in the
    world it is run in. *)
Lemma RequestBodyInMemory_run p req s r :
  deref (world s) p = Some r ->
  setRequestBody (RequestBodyInMemory (Some p)) req s
  = (Val (mkRequest (inmemLen r) (Some (NopCloser r))
                    (Some (ret (Some (NopCloser r), None))), None), s).
Proof.
  intros Hd. cbn. unfold requestBodyFunc_setRequestBody, bind. cbn.
  rewrite Hd. reflexivity.
Qed.

(** C7. For an in-memory payload ([bytes.Buffer], [bytes.Reader] or
    [strings.Reader]) holding N bytes, the body made by
    [RequestBodyInMemory] reports ContentLength N, its stream yields those N
    bytes, and the replay function GetBody, called any number of times,
    yields the same bytes as the first stream each time. *)
Theorem RequestBodyInMemory_length_and_replay (p : ptr) (w : World) (r : inmem)
  (tr : list event) (req : Request) :
  deref w p = Some r -> inmemOk w r ->
  exists body gb,
    setRequestBody (RequestBodyInMemory (Some p)) req (mkState w tr)
    = (Val (mkRequest (Z.of_nat (List.length (inmemUnread w r))) (Some body) (Some gb),
            None), mkState w tr)
    /\ readAll w body = inmemUnread w r
    /\ forall n s, exists bodies,
         replay n gb s = (Val (map (fun b => (Some b, None)) bodies), s)
         /\ List.length bodies = n
         /\ Forall (fun b => readAll w b = readAll w body) bodies.
Proof.
  intros Hd Hok.
  exists (NopCloser r), (ret (Some (NopCloser r), None)).
  split; [|split].
  - rewrite (RequestBodyInMemory_run p req (mkState w tr) r Hd).
    now rewrite (inmemLen_unread w r Hok).
  - reflexivity.
  - intros n s. exists (repeat (NopCloser r) n).
    split; [|split].
    + rewrite (replay_const _ (Some (NopCloser r), None)) by reflexivity.
      now rewrite map_repeat.
    + apply repeat_length.
    + apply Forall_forall. intros b Hb. now rewrite (repeat_spec _ _ _ Hb).
Qed.

Lemma RequestBodyInMemory_length_and_replay_witness :
  exists body gb,
    setRequestBody (RequestBodyInMemory (Some 0%nat)) emptyRequest helloState
    = (Val (mkRequest 5 (Some body) (Some gb), None), helloState)
    /\ readAll helloWorld body = hello
    /\ forall n s, exists bodies,
         replay n gb s = (Val (map (fun b => (Some b, None)) bodies), s)
         /\ List.length bodies = n
         /\ Forall (fun b => readAll helloWorld b = readAll helloWorld body) bodies.
Proof.
  apply (RequestBodyInMemory_length_and_replay
           0%nat helloWorld (BytesBuffer (mkSlice 0 0 5) 0) [] emptyRequest).
  - reflexivity.
  - cbn. unfold sliceOk. cbn. lia.
Defined.

(** C4, as the code has it.  [RequestBodyInMemory] reads the buffer and
    computes its length when the body is materialized by [setRequestBody],
    in the world of that moment, not when the body is constructed.  From then
    on the body holds a copy of the buffer value: the length it reported and
    the value its streams read from no longer follow the source, whatever is
    done to it, and the bytes the streams produce stay the same as long as
    the backing array the copy shares with the source is not overwritten. *)
Theorem RequestBodyInMemory_snapshot_at_materialization (p : ptr) (w : World)
  (r : inmem) (tr : list event) (req : Request) :
  deref w p = Some r ->
  exists gb,
    setRequestBody (RequestBodyInMemory (Some p)) req (mkState w tr)
    = (Val (mkRequest (inmemLen r) (Some (NopCloser r)) (Some gb), None), mkState w tr)
    /\ contentLengthInMemory w (Some p) = Some (inmemLen r)
    /\ (forall s', gb s' = (Val (Some (NopCloser r), None), s'))
    /\ (forall w', sameArray r w w' ->
                   readAll w' (NopCloser r) = readAll w (NopCloser r)).
Proof.
  intros Hd. exists (ret (Some (NopCloser r), None)).
  split; [|split; [|split]].
  - exact (RequestBodyInMemory_run p req (mkState w tr) r Hd).
  - cbn. now rewrite Hd.
  - reflexivity.
  - intros w'. unfold sameArray, readAll, inmemUnread, sliceBytes.
    destruct r as [buf off | s i | s i]; cbn; intros H; now rewrite ?H.
Qed.

Lemma RequestBodyInMemory_snapshot_at_materialization_witness :
  exists gb,
    setRequestBody (RequestBodyInMemory (Some 0%nat)) emptyRequest (mkState grownWorld [])
    = (Val (mkRequest 11 (Some (NopCloser (BytesBuffer (mkSlice 1 0 11) 0))) (Some gb), None),
       mkState grownWorld [])
    /\ contentLengthInMemory grownWorld (Some 0%nat) = Some 11
    /\ (forall s', gb s' = (Val (Some (NopCloser (BytesBuffer (mkSlice 1 0 11) 0)), None), s'))
    /\ (forall w', sameArray (BytesBuffer (mkSlice 1 0 11) 0) grownWorld w' ->
                   readAll w' (NopCloser (BytesBuffer (mkSlice 1 0 11) 0))
                   = readAll grownWorld (NopCloser (BytesBuffer (mkSlice 1 0 11) 0))).
Proof.
  apply (RequestBodyInMemory_snapshot_at_materialization
           0%nat grownWorld (BytesBuffer (mkSlice 1 0 11) 0) [] emptyRequest).
  reflexivity.
Defined.

(** C4, as stated, fails.  The body is constructed from the pointer alone;
    nothing is read then.  With the buffer at pointer 0 holding "hello" at
    construction ([helloWorld], length 5) and " world" written to it before
    the body is materialized ([grownWorld]), the body reports length 11 and
    produces "hello world". *)
Lemma RequestBodyInMemory_not_snapshot_at_construction :
  contentLengthInMemory helloWorld (Some 0%nat) = Some 5
  /\ retrieved (RequestBodyInMemory (Some 0%nat)) helloState = Val (hello, 5, None)
  /\ retrieved (RequestBodyInMemory (Some 0%nat)) (mkState grownWorld [])
     = Val (helloWorldBytes, 11, None).
Proof. repeat split. Qed.

(** After materialization the copy still shares its backing array with the
    source: bytes written in place through the source show in the stream. *)
Example RequestBodyInMemory_shares_array :
  readAll helloWorld (NopCloser (BytesBuffer (mkSlice 0 0 5) 0)) = hello
  /\ readAll overwrittenWorld (NopCloser (BytesBuffer (mkSlice 0 0 5) 0))
     = ["H"; "E"; "L"; "L"; "O"]%byte.
Proof. split; reflexivity. Qed.

(** ** Encoder bodies *)

Lemma sliceFrom_0 w s : sliceBytes w (sliceFrom s 0) = sliceBytes w s.
Proof.
  unfold sliceBytes, sliceFrom. cbn [arr lo len].
  now rewrite Nat.add_0_r, Nat.sub_0_r.
Qed.

(** A fresh [bytes.NewReader(raw)] yields the bytes of [raw]. *)
Lemma NewReader_unread w raw :
  readAll w (NopCloser (NewReader raw)) = sliceBytes w raw.
Proof.
  unfold readAll, NewReader, inmemUnread.
  destruct (Z.of_nat (len raw) <=? 0) eqn:E.
  - apply Z.leb_le in E. unfold sliceBytes.
    replace (len raw) with 0%nat by lia. reflexivity.
  - cbn [Z.to_nat]. apply sliceFrom_0.
Qed.

(** The slice [buffer.Bytes()] of a well-formed buffer has as many bytes as
    the buffer holds unread. *)
Lemma bufferUnread_length w buffer buf off bytes :
  deref w buffer = Some (BytesBuffer buf off) ->
  inmemOk w (BytesBuffer buf off) ->
  bufferUnread w buffer = Some bytes ->
  len (sliceFrom buf off) = List.length bytes
  /\ sliceBytes w (sliceFrom buf off) = bytes.
Proof.
  intros Hd [Hs Hoff] Hu. unfold bufferUnread in Hu. rewrite Hd in Hu.
  inversion Hu; subst. cbn [inmemUnread]. split; [|reflexivity].
  symmetry. apply sliceBytes_length. now apply sliceFrom_ok.
Qed.

(** C8, as the code has it.  For a value the encoder accepts,
    [RequestBodyEncoderObject] reports the number of encoded bytes, its
    stream yields those bytes, and every call of GetBody yields them again
    without another encoder call: the encoder is called once per
    materialization.  [RequestBodyEncoderObjectBuffer] does the same on the
    bytes the buffer holds unread after encoding.  When the encoder wrote
    [encoded] to a buffer that held [pre] unread before, these are [pre]
    followed by [encoded]: the encoded bytes alone when the buffer was empty
    before, the buffer's earlier unread bytes followed by the encoded bytes
    otherwise. *)
Theorem RequestBodyEncoder_length_and_replay (v : value) (enc : Encoder)
  (req : Request) (s : state) :
  (forall raw w1,
      Marshal enc v (world s) = ((raw, None), w1) -> sliceOk w1 raw ->
      exists body gb,
        setRequestBody (RequestBodyEncoderObject v enc) req s
        = (Val (mkRequest (Z.of_nat (len raw)) (Some body) (Some gb), None),
           mkState w1 (trace s ++ [EvMarshal]))
        /\ readAll w1 body = sliceBytes w1 raw
        /\ List.length (sliceBytes w1 raw) = len raw
        /\ forall n s', replay n gb s' = (Val (repeat (Some body, None) n), s'))
  /\ (forall buffer buf off w1,
      Encode enc buffer v (world s) = (None, w1) ->
      deref w1 buffer = Some (BytesBuffer buf off) ->
      inmemOk w1 (BytesBuffer buf off) ->
      exists body gb,
        setRequestBody (RequestBodyEncoderObjectBuffer v enc buffer) req s
        = (Val (mkRequest (Z.of_nat (List.length (inmemUnread w1 (BytesBuffer buf off))))
                          (Some body) (Some gb), None),
           mkState w1 (trace s ++ [EvEncode buffer]))
        /\ readAll w1 body = inmemUnread w1 (BytesBuffer buf off)
        /\ (forall n s', replay n gb s' = (Val (repeat (Some body, None) n), s')))
  /\ (forall buffer buf off w1 pre encoded,
      bufferUnread (world s) buffer = Some pre ->
      Encode enc buffer v (world s) = (None, w1) ->
      deref w1 buffer = Some (BytesBuffer buf off) ->
      inmemOk w1 (BytesBuffer buf off) ->
      bufferUnread w1 buffer = Some (pre ++ encoded) ->
      exists body gb,
        setRequestBody (RequestBodyEncoderObjectBuffer v enc buffer) req s
        = (Val (mkRequest (Z.of_nat (List.length pre) + Z.of_nat (List.length encoded))
                          (Some body) (Some gb), None),
           mkState w1 (trace s ++ [EvEncode buffer]))
        /\ readAll w1 body = pre ++ encoded
        /\ (forall n s', replay n gb s' = (Val (repeat (Some body, None) n), s'))
        /\ (pre = [] ->
            readAll w1 body = encoded
            /\ setRequestBody (RequestBodyEncoderObjectBuffer v enc buffer) req s
               = (Val (mkRequest (Z.of_nat (List.length encoded)) (Some body) (Some gb), None),
                  mkState w1 (trace s ++ [EvEncode buffer])))).
Proof.
  assert (Hset : forall buffer buf off w1,
             Encode enc buffer v (world s) = (None, w1) ->
             deref w1 buffer = Some (BytesBuffer buf off) ->
             setRequestBody (RequestBodyEncoderObjectBuffer v enc buffer) req s
             = (Val (mkRequest (Z.of_nat (len (sliceFrom buf off)))
                               (Some (NopCloser (NewReader (sliceFrom buf off))))
                               (Some (ret (Some (NopCloser (NewReader (sliceFrom buf off))),
                                           None))), None),
                mkState w1 (trace s ++ [EvEncode buffer]))).
  { intros buffer buf off w1 He Hd.
    cbn [setRequestBody RequestBodyEncoderObjectBuffer].
    unfold requestBodyFunc_setRequestBody, bind, emit, liftW, bufferBytes.
    cbn [world trace]. rewrite He. cbn [world trace]. rewrite Hd. reflexivity. }
  split; [|split].
  - intros raw w1 Hm Hok.
    exists (NopCloser (NewReader raw)), (ret (Some (NopCloser (NewReader raw)), None)).
    split; [|split; [|split]].
    + cbn [setRequestBody RequestBodyEncoderObject].
      unfold requestBodyFunc_setRequestBody, bind, emit, liftW.
      cbn [world trace]. rewrite Hm. reflexivity.
    + apply NewReader_unread.
    + now apply sliceBytes_length.
    + now apply replay_const.
  - intros buffer buf off w1 He Hd Hok.
    exists (NopCloser (NewReader (sliceFrom buf off))),
      (ret (Some (NopCloser (NewReader (sliceFrom buf off))), None)).
    assert (Hu : bufferUnread w1 buffer = Some (inmemUnread w1 (BytesBuffer buf off))).
    { unfold bufferUnread. now rewrite Hd. }
    destruct (bufferUnread_length _ _ _ _ _ Hd Hok Hu) as [Hlen _].
    split; [|split].
    + rewrite <- Hlen. now apply Hset.
    + apply NewReader_unread.
    + now apply replay_const.
  - intros buffer buf off w1 pre encoded Hpre He Hd Hok Hu.
    exists (NopCloser (NewReader (sliceFrom buf off))),
      (ret (Some (NopCloser (NewReader (sliceFrom buf off))), None)).
    destruct (bufferUnread_length _ _ _ _ _ Hd Hok Hu) as [Hlen Hbytes].
    assert (HZ : Z.of_nat (len (sliceFrom buf off))
                 = Z.of_nat (List.length pre) + Z.of_nat (List.length encoded)).
    { rewrite Hlen, length_app. lia. }
    split; [|split; [|split]].
    + rewrite <- HZ. now apply Hset.
    + rewrite NewReader_unread. exact Hbytes.
    + now apply replay_const.
    + intros ->. split.
      * rewrite NewReader_unread. exact Hbytes.
      * rewrite (Hset _ _ _ _ He Hd), HZ. reflexivity.
Qed.

Lemma RequestBodyEncoder_length_and_replay_witness :
  (exists body gb,
      setRequestBody (RequestBodyEncoderObject otherValue (writeEncoder hi))
                     emptyRequest (mkState emptyBufferWorld [])
      = (Val (mkRequest 2 (Some body) (Some gb), None),
         mkState (mkWorld [[]; hi] [BytesBuffer (mkSlice 0 0 0) 0] [] []) [EvMarshal])
      /\ readAll (mkWorld [[]; hi] [BytesBuffer (mkSlice 0 0 0) 0] [] []) body = hi
      /\ List.length hi = 2%nat
      /\ forall n s', replay n gb s' = (Val (repeat (Some body, None) n), s'))
  /\ (exists body gb,
      setRequestBody (RequestBodyEncoderObjectBuffer otherValue (writeEncoder hi) 0%nat)
                     emptyRequest (mkState emptyBufferWorld [])
      = (Val (mkRequest 2 (Some body) (Some gb), None),
         mkState (mkWorld [[]; hi] [BytesBuffer (mkSlice 1 0 2) 0] [] []) [EvEncode 0%nat])
      /\ readAll (mkWorld [[]; hi] [BytesBuffer (mkSlice 1 0 2) 0] [] []) body = hi
      /\ (forall n s', replay n gb s' = (Val (repeat (Some body, None) n), s')))
  /\ (exists body gb,
      setRequestBody (RequestBodyEncoderObjectBuffer otherValue (writeEncoder hi) 0%nat)
                     emptyRequest (mkState junkWorld [])
      = (Val (mkRequest 3 (Some body) (Some gb), None),
         mkState (mkWorld [["x"]%byte; ["x"; "h"; "i"]%byte]
                          [BytesBuffer (mkSlice 1 0 3) 0] [] []) [EvEncode 0%nat])
      /\ readAll (mkWorld [["x"]%byte; ["x"; "h"; "i"]%byte]
                          [BytesBuffer (mkSlice 1 0 3) 0] [] []) body
         = ["x"]%byte ++ hi)
  /\ (exists body gb,
      setRequestBody (RequestBodyEncoderObjectBuffer otherValue (writeEncoder hi) 0%nat)
                     emptyRequest (mkState emptyBufferWorld [])
      = (Val (mkRequest 2 (Some body) (Some gb), None),
         mkState (mkWorld [[]; hi] [BytesBuffer (mkSlice 1 0 2) 0] [] []) [EvEncode 0%nat])
      /\ readAll (mkWorld [[]; hi] [BytesBuffer (mkSlice 1 0 2) 0] [] []) body = hi).
Proof.
  split; [|split; [|split]].
  - apply (proj1 (RequestBodyEncoder_length_and_replay
                    otherValue (writeEncoder hi) emptyRequest (mkState emptyBufferWorld []))
                 (mkSlice 1 0 2) (mkWorld [[]; hi] [BytesBuffer (mkSlice 0 0 0) 0] [] [])).
    + reflexivity.
    + unfold sliceOk. cbn. lia.
  - apply (proj1 (proj2 (RequestBodyEncoder_length_and_replay
                    otherValue (writeEncoder hi) emptyRequest (mkState emptyBufferWorld [])))
                 0%nat (mkSlice 1 0 2) 0%nat
                 (mkWorld [[]; hi] [BytesBuffer (mkSlice 1 0 2) 0] [] [])).
    + reflexivity.
    + reflexivity.
    + cbn. unfold sliceOk. cbn. lia.
  - destruct (proj2 (proj2 (RequestBodyEncoder_length_and_replay
                    otherValue (writeEncoder hi) emptyRequest (mkState junkWorld [])))
                 0%nat (mkSlice 1 0 3) 0%nat
                 (mkWorld [["x"]%byte; ["x"; "h"; "i"]%byte]
                          [BytesBuffer (mkSlice 1 0 3) 0] [] [])
                 ["x"]%byte hi eq_refl eq_refl eq_refl
                 (conj (le_n 3) (Nat.le_0_l 3)) eq_refl)
      as [body [gb [H1 [H2 _]]]].
    exists body, gb. split; [exact H1 | exact H2].
  - destruct (proj2 (proj2 (RequestBodyEncoder_length_and_replay
                    otherValue (writeEncoder hi) emptyRequest (mkState emptyBufferWorld [])))
                 0%nat (mkSlice 1 0 2) 0%nat
                 (mkWorld [[]; hi] [BytesBuffer (mkSlice 1 0 2) 0] [] [])
                 [] hi eq_refl eq_refl eq_refl
                 (conj (le_n 2) (Nat.le_0_l 2)) eq_refl)
      as [body [gb [_ [_ [_ H4]]]]].
    exists body, gb. destruct (H4 eq_refl) as [Hr Hs]. split; [exact Hs | exact Hr].
Defined.

(** C8, as stated, fails for [RequestBodyEncoderObjectBuffer]: with a buffer
    that already holds the byte "x" and an encoder that encodes the value as
    the two bytes "hi", the body reports ContentLength 3 and its stream
    yields "xhi", where the number of encoded bytes is 2. *)
Lemma RequestBodyEncoderObjectBuffer_keeps_buffer_contents :
  retrieved (RequestBodyEncoderObjectBuffer otherValue (writeEncoder hi) 0%nat)
            (mkState junkWorld [])
  = Val (["x"; "h"; "i"]%byte, 3, None)
  /\ retrieved (RequestBodyEncoderObject otherValue (writeEncoder hi)) (mkState junkWorld [])
     = Val (hi, 2, None)
  /\ List.length hi = 2%nat.
Proof. repeat split. Qed.

(** The exchange of [TestJSONBody] with a pool: the buffer is taken, the
    value encoded into it, the transport called, and the cleanup gives the
    buffer back before the response is read. *)
Example RoundTrip_pool_success :
  RoundTrip (mw (Some otherValue) (Some (writeEncoder hi)) (Some fixedPool))
            emptyRequest okTransport (mkState emptyBufferWorld [])
  = (Val (Some okResponse, None),
     mkState (mkWorld [[]; hi] [BytesBuffer (mkSlice 1 0 2) 0] [] [])
             [EvPoolGet 0%nat; EvEncode 0%nat; EvTransport; EvCleanup; EvPoolPut 0%nat]).
Proof. reflexivity. Qed.

(** ** Further properties of body_types.go *)

(** A nil in-memory input is the empty body: [RequestBodyInMemory(nil)]
    materializes exactly as [RequestBodyEmpty()] does, with Body =
    http.NoBody, ContentLength 0, no GetBody and no error. *)
Theorem RequestBodyInMemory_nil_is_empty (req : Request) (s : state) :
  setRequestBody (RequestBodyInMemory None) req s
  = setRequestBody RequestBodyEmpty req s
  /\ setRequestBody (RequestBodyInMemory None) req s = (Val (noBodyRequest, None), s)
  /\ RetrieveReaderFromRequestBody (RequestBodyInMemory None) s
     = (Val (Some NoBody, 0, None), s).
Proof. repeat split. Qed.

(** [contentLengthInMemory] is 0 for a nil pointer; for a live buffer or
    reader it is the number of bytes still unread, never negative, and 0 for
    a reader positioned at or past its end. *)
Theorem contentLengthInMemory_counts_unread (w : World) (p : ptr) (r : inmem) :
  deref w p = Some r -> inmemOk w r ->
  contentLengthInMemory w None = Some 0
  /\ contentLengthInMemory w (Some p) = Some (Z.of_nat (List.length (inmemUnread w r)))
  /\ (forall n, contentLengthInMemory w (Some p) = Some n -> 0 <= n)
  /\ (forall sl i, r = BytesReader sl i -> Z.of_nat (len sl) <= i ->
                   contentLengthInMemory w (Some p) = Some 0).
Proof.
  intros Hd Hok. unfold contentLengthInMemory. rewrite Hd. cbn [option_map].
  rewrite (inmemLen_unread w r Hok).
  split; [reflexivity|]. split; [reflexivity|]. split.
  - intros n H. inversion H. lia.
  - intros sl i -> Hi. rewrite <- (inmemLen_unread w _ Hok). cbn [inmemLen].
    apply Z.leb_le in Hi. now rewrite Hi.
Qed.

Lemma contentLengthInMemory_counts_unread_witness :
  contentLengthInMemory helloWorld None = Some 0
  /\ contentLengthInMemory helloWorld (Some 1%nat) = Some 5.
Proof.
  destruct (contentLengthInMemory_counts_unread helloWorld 1%nat
              (BytesReader (mkSlice 0 0 5) 0) eq_refl) as [H0 [H1 _]].
  - cbn. unfold sliceOk. cbn. lia.
  - split; [exact H0 | exact H1].
Defined.

(** A factory that returns a nil stream with a nil error gives the empty
    body, for each of the three shapes and both stream constructors: the
    length the factory supplied and, for [RequestBodyStreamWithReplay], the
    replay function are dropped.  The factory is called once. *)
Theorem stream_nil_body_is_empty (req : Request) (s : state) (w' : World) :
  (forall f : fn1, f (world s) = (None, w') ->
     setRequestBody (RequestBodyStreamOnce (InF1 (Some f))) req s
     = (Val (noBodyRequest, None), mkState w' (trace s))
     /\ setRequestBody (RequestBodyStreamWithReplay (InF1 (Some f))) req s
        = (Val (noBodyRequest, None), mkState w' (trace s)))
  /\ (forall f : fn2, f (world s) = ((None, None), w') ->
     setRequestBody (RequestBodyStreamOnce (InF2 (Some f))) req s
     = (Val (noBodyRequest, None), mkState w' (trace s))
     /\ setRequestBody (RequestBodyStreamWithReplay (InF2 (Some f))) req s
        = (Val (noBodyRequest, None), mkState w' (trace s)))
  /\ (forall (f : fn3) l, f (world s) = ((None, l, None), w') ->
     setRequestBody (RequestBodyStreamOnce (InF3 (Some f))) req s
     = (Val (noBodyRequest, None), mkState w' (trace s))
     /\ setRequestBody (RequestBodyStreamWithReplay (InF3 (Some f))) req s
        = (Val (noBodyRequest, None), mkState w' (trace s))).
Proof.
  repeat split; cbn; unfold requestBodyFunc_setRequestBody, bind, liftW;
    cbn; rewrite H; reflexivity.
Qed.

Lemma stream_nil_body_is_empty_witness :
  setRequestBody (RequestBodyStreamWithReplay (InF1 (Some nilStream))) usedRequest helloState
  = (Val (noBodyRequest, None), helloState)
  /\ setRequestBody (RequestBodyStreamOnce (InF2 (Some nilStream2))) usedRequest helloState
     = (Val (noBodyRequest, None), helloState)
  /\ setRequestBody (RequestBodyStreamWithReplay (InF3 (Some nilStream3))) usedRequest helloState
     = (Val (noBodyRequest, None), helloState).
Proof.
  pose proof (stream_nil_body_is_empty usedRequest helloState helloWorld) as [H1 [H2 H3]].
  split; [|split].
  - exact (proj2 (H1 nilStream eq_refl)).
  - exact (proj1 (H2 nilStream2 eq_refl)).
  - exact (proj2 (H3 nilStream3 42 eq_refl)).
Defined.

(** A factory error is the result of [setRequestBody], and the request is
    left as it was, also when the factory returned a stream (and a length)
    along with the error; both constructors, both shapes that can fail. *)
Theorem stream_factory_error (req : Request) (s : state) (w' : World)
  (body : option ReadCloser) (e : error) :
  (forall f : fn2, f (world s) = ((body, Some e), w') ->
     setRequestBody (RequestBodyStreamOnce (InF2 (Some f))) req s
     = (Val (req, Some e), mkState w' (trace s))
     /\ setRequestBody (RequestBodyStreamWithReplay (InF2 (Some f))) req s
        = (Val (req, Some e), mkState w' (trace s)))
  /\ (forall (f : fn3) l, f (world s) = ((body, l, Some e), w') ->
     setRequestBody (RequestBodyStreamOnce (InF3 (Some f))) req s
     = (Val (req, Some e), mkState w' (trace s))
     /\ setRequestBody (RequestBodyStreamWithReplay (InF3 (Some f))) req s
        = (Val (req, Some e), mkState w' (trace s))).
Proof.
  repeat split; cbn; unfold requestBodyFunc_setRequestBody, bind, liftW;
    cbn; rewrite H; reflexivity.
Qed.

Lemma stream_factory_error_witness :
  setRequestBody (RequestBodyStreamOnce (InF2 (Some failingStream2))) usedRequest helloState
  = (Val (usedRequest, Some (ErrOther 5)), helloState)
  /\ setRequestBody (RequestBodyStreamWithReplay (InF3 (Some failingStream3)))
                    usedRequest helloState
     = (Val (usedRequest, Some (ErrOther 5)), helloState).
Proof.
  pose proof (stream_factory_error usedRequest helloState helloWorld
                (Some (UserStream 0)) (ErrOther 5)) as [H2 H3].
  split.
  - exact (proj1 (H2 failingStream2 eq_refl)).
  - exact (proj2 (H3 failingStream3 5 eq_refl)).
Defined.

(** A stream-once body with a non-nil stream: ContentLength is -1 for the
    two shapes without a length and the length the factory supplied for the
    third, the stream is the factory's, and there is no replay function.
    The factory is called once. *)
Theorem streamOnce_length (req : Request) (s : state) (w' : World) (body : ReadCloser) :
  (forall f : fn1, f (world s) = (Some body, w') ->
     setRequestBody (RequestBodyStreamOnce (InF1 (Some f))) req s
     = (Val (mkRequest (-1) (Some body) None, None), mkState w' (trace s)))
  /\ (forall f : fn2, f (world s) = ((Some body, None), w') ->
     setRequestBody (RequestBodyStreamOnce (InF2 (Some f))) req s
     = (Val (mkRequest (-1) (Some body) None, None), mkState w' (trace s)))
  /\ (forall (f : fn3) l, f (world s) = ((Some body, l, None), w') ->
     setRequestBody (RequestBodyStreamOnce (InF3 (Some f))) req s
     = (Val (mkRequest l (Some body) None, None), mkState w' (trace s))).
Proof.
  repeat split; intros; cbn; unfold requestBodyFunc_setRequestBody, bind, liftW;
    cbn; rewrite H; reflexivity.
Qed.

Lemma streamOnce_length_witness :
  setRequestBody (RequestBodyStreamOnce (InF1 (Some helloStream))) usedRequest helloState
  = (Val (mkRequest (-1) (Some (UserStream 0)) None, None), helloState)
  /\ setRequestBody (RequestBodyStreamOnce (InF2 (Some helloStream2))) usedRequest helloState
     = (Val (mkRequest (-1) (Some (UserStream 0)) None, None), helloState)
  /\ setRequestBody (RequestBodyStreamOnce (InF3 (Some helloStream3))) usedRequest helloState
     = (Val (mkRequest 5 (Some (UserStream 0)) None, None), helloState).
Proof.
  pose proof (streamOnce_length usedRequest helloState helloWorld (UserStream 0))
    as [H1 [H2 H3]].
  split; [|split].
  - exact (H1 helloStream eq_refl).
  - exact (H2 helloStream2 eq_refl).
  - exact (H3 helloStream3 5 eq_refl).
Defined.

(** A stream-with-replay body with a non-nil stream: the length is as for
    stream-once, and GetBody runs the factory again, on the world of the
    moment it is called: nothing of the first call is kept.  For the first
    shape a replay never fails; for the second it returns what the factory
    returns; for the third it returns the factory's stream and error and
    drops the length. *)
Theorem streamWithReplay_replays_factory (req : Request) (s : state) (w' : World)
  (body : ReadCloser) :
  (forall f : fn1, f (world s) = (Some body, w') ->
     exists gb,
       setRequestBody (RequestBodyStreamWithReplay (InF1 (Some f))) req s
       = (Val (mkRequest (-1) (Some body) (Some gb), None), mkState w' (trace s))
       /\ forall s2, gb s2 = (Val (fst (f (world s2)), None),
                              mkState (snd (f (world s2))) (trace s2)))
  /\ (forall f : fn2, f (world s) = ((Some body, None), w') ->
     exists gb,
       setRequestBody (RequestBodyStreamWithReplay (InF2 (Some f))) req s
       = (Val (mkRequest (-1) (Some body) (Some gb), None), mkState w' (trace s))
       /\ forall s2, gb s2 = (Val (fst (f (world s2))),
                              mkState (snd (f (world s2))) (trace s2)))
  /\ (forall (f : fn3) l, f (world s) = ((Some body, l, None), w') ->
     exists gb,
       setRequestBody (RequestBodyStreamWithReplay (InF3 (Some f))) req s
       = (Val (mkRequest l (Some body) (Some gb), None), mkState w' (trace s))
       /\ forall s2, gb s2 = (Val (fst (fst (fst (f (world s2)))), snd (fst (f (world s2)))),
                              mkState (snd (f (world s2))) (trace s2))).
Proof.
  split; [|split].
  - intros f Hf. eexists. split.
    + cbn. unfold requestBodyFunc_setRequestBody, bind, liftW. cbn. rewrite Hf.
      reflexivity.
    + intros s2. unfold bind, call, liftW. destruct (f (world s2)). reflexivity.
  - intros f Hf. eexists. split.
    + cbn. unfold requestBodyFunc_setRequestBody, bind, liftW. cbn. rewrite Hf.
      reflexivity.
    + intros s2. unfold call, liftW. destruct (f (world s2)). reflexivity.
  - intros f l Hf. eexists. split.
    + cbn. unfold requestBodyFunc_setRequestBody, bind, liftW. cbn. rewrite Hf.
      reflexivity.
    + intros s2. unfold bind, call, liftW.
      destruct (f (world s2)) as [[[b l'] e] w2]. reflexivity.
Qed.

Lemma streamWithReplay_replays_factory_witness :
  (exists gb,
      setRequestBody (RequestBodyStreamWithReplay (InF1 (Some helloStream))) usedRequest helloState
      = (Val (mkRequest (-1) (Some (UserStream 0)) (Some gb), None), helloState)
      /\ forall s2, gb s2 = (Val (fst (helloStream (world s2)), None),
                             mkState (snd (helloStream (world s2))) (trace s2)))
  /\ (exists gb,
      setRequestBody (RequestBodyStreamWithReplay (InF2 (Some helloStream2))) usedRequest helloState
      = (Val (mkRequest (-1) (Some (UserStream 0)) (Some gb), None), helloState)
      /\ forall s2, gb s2 = (Val (fst (helloStream2 (world s2))),
                             mkState (snd (helloStream2 (world s2))) (trace s2)))
  /\ (exists gb,
      setRequestBody (RequestBodyStreamWithReplay (InF3 (Some helloStream3))) usedRequest helloState
      = (Val (mkRequest 5 (Some (UserStream 0)) (Some gb), None), helloState)
      /\ forall s2, gb s2
                    = (Val (fst (fst (fst (helloStream3 (world s2)))),
                            snd (fst (helloStream3 (world s2)))),
                       mkState (snd (helloStream3 (world s2))) (trace s2))).
Proof.
  pose proof (streamWithReplay_replays_factory usedRequest helloState helloWorld (UserStream 0))
    as [H1 [H2 H3]].
  split; [|split].
  - exact (H1 helloStream eq_refl).
  - exact (H2 helloStream2 eq_refl).
  - exact (H3 helloStream3 5 eq_refl).
Defined.

(** Whatever the body, [setRequestBody] either fails and leaves the request
    as it was, or succeeds and leaves a non-nil Body. *)
Lemma setRequestBody_error_or_body rb req s req' err s' :
  setRequestBody rb req s = (Val (req', err), s') ->
  match err with
  | Some _ => req' = req
  | None => Body req' <> None
  end.
Proof.
  destruct rb as [f|f]; cbn [setRequestBody];
    unfold requestBodyFunc_setRequestBody, bind;
    (destruct (f s) as [[r|] s1]; [|discriminate]);
    (destruct (br_err r); [unfold ret; intros H; inversion H; reflexivity|]);
    destruct (br_body r); unfold ret; intros H; inversion H; discriminate.
Qed.

(** [RetrieveReaderFromRequestBody] returns either an error with a nil
    reader and length 0, or a non-nil reader with no error: never a nil
    reader without an error. *)
Theorem RetrieveReaderFromRequestBody_reader_or_error (body : RequestBody) (s : state)
  r l err s' :
  RetrieveReaderFromRequestBody body s = (Val (r, l, err), s') ->
  match err with
  | Some _ => r = None /\ l = 0
  | None => r <> None
  end.
Proof.
  unfold RetrieveReaderFromRequestBody, bind.
  destruct (setRequestBody body emptyRequest s) as [[[req' e]|] s1] eqn:Hset;
    [|discriminate].
  apply setRequestBody_error_or_body in Hset.
  destruct e; unfold ret; intros H; inversion H; subst.
  - now split.
  - exact Hset.
Qed.

Lemma RetrieveReaderFromRequestBody_reader_or_error_witness :
  RetrieveReaderFromRequestBody (RequestBodyStreamOnce (InF2 (Some failingStream2))) helloState
  = (Val (None, 0, Some (ErrOther 5)), helloState)
  /\ ((None : option ReadCloser) = None /\ 0 = 0)
  /\ RetrieveReaderFromRequestBody (RequestBodyInMemory (Some 1%nat)) helloState
     = (Val (Some (NopCloser (BytesReader (mkSlice 0 0 5) 0)), 5, None), helloState)
  /\ Some (NopCloser (BytesReader (mkSlice 0 0 5) 0)) <> None.
Proof.
  split; [reflexivity|]. split; [|split; [reflexivity|]].
  - exact (RetrieveReaderFromRequestBody_reader_or_error
             (RequestBodyStreamOnce (InF2 (Some failingStream2))) helloState
             None 0 (Some (ErrOther 5)) helloState eq_refl).
  - exact (RetrieveReaderFromRequestBody_reader_or_error
             (RequestBodyInMemory (Some 1%nat)) helloState
             (Some (NopCloser (BytesReader (mkSlice 0 0 5) 0))) 5 None helloState eq_refl).
Defined.

(** ** Further properties of body_handler.go *)

(** [bodyMiddleware.setRequestBody] either returns an error and leaves the
    request as it was (configuration error, encoder error, factory error), or
    returns no error, a cleanup function that is not nil, and a request whose
    Body is not nil. *)
Theorem bm_setRequestBody_error_keeps_request (b : bodyMiddleware) (req : Request)
  (s : state) cleanup err req1 s1 :
  bm_setRequestBody b req s = (Val (cleanup, err, req1), s1) ->
  match err with
  | Some _ => req1 = req
  | None => Body req1 <> None /\ cleanup <> None
  end.
Proof.
  assert (Hfin : forall (c : M unit) rb s0,
             ('(req', e) <- setRequestBody rb req ;; ret (Some c, e, req')) s0
             = (Val (cleanup, err, req1), s1) ->
             match err with
             | Some _ => req1 = req
             | None => Body req1 <> None /\ cleanup <> None
             end).
  { intros c rb s0. unfold bind.
    destruct (setRequestBody rb req s0) as [[[req' e]|] s'] eqn:Hset; [|discriminate].
    apply setRequestBody_error_or_body in Hset.
    unfold ret. intros H; inversion H; subst.
    destruct err; [exact Hset | split; [exact Hset | discriminate]]. }
  unfold bm_setRequestBody.
  destruct (requestInput b) as [input|]; [|apply Hfin].
  destruct (requestEncoder b) as [enc|].
  - destruct (bufferPool b) as [pool|]; [|apply Hfin].
    unfold bind at 1. destruct (poolGet pool s) as [[buf|] s0]; [|discriminate].
    apply Hfin.
  - destruct (asRequestBody input); [apply Hfin|].
    unfold ret. intros H; inversion H; reflexivity.
Qed.

Lemma bm_setRequestBody_error_keeps_request_witness :
  bm_setRequestBody (mw (Some otherValue) (Some failingEncoder) (Some fixedPool))
    usedRequest helloState
  = (Val (Some (poolPut fixedPool 0%nat), Some (ErrOther 2), usedRequest),
     mkState helloWorld [EvPoolGet 0%nat; EvEncode 0%nat])
  /\ usedRequest = usedRequest.
Proof.
  split; [reflexivity|].
  exact (bm_setRequestBody_error_keeps_request
           (mw (Some otherValue) (Some failingEncoder) (Some fixedPool))
           usedRequest helloState
           (Some (poolPut fixedPool 0%nat)) (Some (ErrOther 2)) usedRequest
           (mkState helloWorld [EvPoolGet 0%nat; EvEncode 0%nat]) eq_refl).
Defined.

(** Whenever [bodyMiddleware.setRequestBody] returns an error, [RoundTrip]
    returns a nil response with that error and does nothing else: the
    transport is not called, whatever it is, and the state is the one
    [setRequestBody] left. *)
Theorem RoundTrip_setRequestBody_error (b : bodyMiddleware) (req : Request)
  (next : RoundTripper) (s : state) cleanup e req1 s1 :
  bm_setRequestBody b req s = (Val (cleanup, Some e, req1), s1) ->
  RoundTrip b req next s = (Val (None, Some e), s1).
Proof.
  intros Hset. unfold RoundTrip. now rewrite (bind_val _ _ _ _ _ Hset).
Qed.

Lemma RoundTrip_setRequestBody_error_witness :
  RoundTrip onceFailingMiddleware usedRequest okTransport helloState
  = (Val (None, Some (ErrOther 5)), helloState).
Proof.
  exact (RoundTrip_setRequestBody_error onceFailingMiddleware usedRequest okTransport
           helloState (Some (ret tt)) (ErrOther 5) usedRequest helloState eq_refl).
Defined.

(** An encoder error is what [setRequestBody] returns, with the request left
    as it was and the encoder called once; without a pool, [RoundTrip] then
    returns it without calling the transport. *)
Theorem encoder_error_is_returned (v : value) (enc : Encoder) (req : Request)
  (s : state) (e : error) (w1 : World) :
  (forall raw, Marshal enc v (world s) = ((raw, Some e), w1) ->
     setRequestBody (RequestBodyEncoderObject v enc) req s
     = (Val (req, Some e), mkState w1 (trace s ++ [EvMarshal])))
  /\ (forall buffer, Encode enc buffer v (world s) = (Some e, w1) ->
     setRequestBody (RequestBodyEncoderObjectBuffer v enc buffer) req s
     = (Val (req, Some e), mkState w1 (trace s ++ [EvEncode buffer])))
  /\ (forall b next raw,
     requestInput b = Some v -> requestEncoder b = Some enc -> bufferPool b = None ->
     Marshal enc v (world s) = ((raw, Some e), w1) ->
     RoundTrip b req next s = (Val (None, Some e), mkState w1 (trace s ++ [EvMarshal]))).
Proof.
  assert (HM : forall raw, Marshal enc v (world s) = ((raw, Some e), w1) ->
     setRequestBody (RequestBodyEncoderObject v enc) req s
     = (Val (req, Some e), mkState w1 (trace s ++ [EvMarshal]))).
  { intros raw Hm. cbn [setRequestBody RequestBodyEncoderObject].
    unfold requestBodyFunc_setRequestBody, bind, emit, liftW.
    cbn [world trace]. rewrite Hm. reflexivity. }
  split; [exact HM|]. split.
  - intros buffer He. cbn [setRequestBody RequestBodyEncoderObjectBuffer].
    unfold requestBodyFunc_setRequestBody, bind, emit, liftW.
    cbn [world trace]. rewrite He. reflexivity.
  - intros b next raw Hi Henc Hp Hm.
    assert (Hset : bm_setRequestBody b req s
                   = (Val (Some (ret tt), Some e, req),
                      mkState w1 (trace s ++ [EvMarshal]))).
    { unfold bm_setRequestBody. rewrite Hi, Henc, Hp.
      now rewrite (bind_val _ _ _ _ _ (HM raw Hm)). }
    unfold RoundTrip. now rewrite (bind_val _ _ _ _ _ Hset).
Qed.

Lemma encoder_error_is_returned_witness :
  setRequestBody (RequestBodyEncoderObject otherValue failingEncoder) usedRequest helloState
  = (Val (usedRequest, Some (ErrOther 2)), mkState helloWorld [EvMarshal])
  /\ setRequestBody (RequestBodyEncoderObjectBuffer otherValue failingEncoder 0%nat)
                     usedRequest helloState
     = (Val (usedRequest, Some (ErrOther 2)), mkState helloWorld [EvEncode 0%nat])
  /\ RoundTrip (mw (Some otherValue) (Some failingEncoder) None) usedRequest okTransport
                helloState
     = (Val (None, Some (ErrOther 2)), mkState helloWorld [EvMarshal]).
Proof.
  pose proof (encoder_error_is_returned otherValue failingEncoder usedRequest helloState
                (ErrOther 2) helloWorld) as [H1 [H2 H3]].
  split; [|split].
  - exact (H1 (mkSlice 0 0 0) eq_refl).
  - exact (H2 0%nat eq_refl).
  - exact (H3 (mw (Some otherValue) (Some failingEncoder) None) okTransport (mkSlice 0 0 0)
              eq_refl eq_refl eq_refl eq_refl).
Defined.

(** Over a transport that returns, [RoundTrip] is as before. *)
Lemma RoundTrip_returning b req next s :
  Panicking.RoundTrip b req (Panicking.returning next) s = RoundTrip b req next s.
Proof.
  unfold Panicking.RoundTrip, RoundTrip, bind.
  destruct (bm_setRequestBody b req s) as [[[[cleanup err] req1]|] s1]; [|reflexivity].
  destruct err; [reflexivity|].
  unfold emit, Panicking.callTransport, Panicking.returning, liftW. cbn [world trace].
  destruct (next req1 (world s1)) as [[resp respErr] w2]. reflexivity.
Qed.



(** * conjure-go-contract/errors *)

Lemma errors_lookup_In name d :
  errors.lookup name d = None <-> ~ In name (map fst d).
Proof.
  induction d as [|[k v] d IH]; cbn.
  - tauto.
  - destruct (String.eqb k name) eqn:E.
    + apply String.eqb_eq in E. split; [discriminate|]. intros H. elim H. now left.
    + apply String.eqb_neq in E. rewrite IH. tauto.
Qed.

(** After a successful [RegisterErrorType name typ], the name is bound to
    [typ], every other name is bound as before, and [DecodeConjureError]
    for that name unmarshals the body into [typ]. *)
Theorem errors_register_then_decode (d d' : errors.registry) (name : string)
  (typ : errors.rtype) :
  errors.RegisterErrorType d name typ = (d', None) ->
  errors.lookup name d' = Some typ
  /\ (forall other, other <> name -> errors.lookup other d' = errors.lookup other d)
  /\ (forall jsonUnmarshal genericError body fields,
        jsonUnmarshal body typ = errors.UValue fields ->
        errors.DecodeConjureError jsonUnmarshal genericError d' name body
        = (Some (errors.mkError typ fields), None)).
Proof.
  unfold errors.RegisterErrorType.
  destruct (errors.lookup name d); [discriminate|].
  destruct (errors.ptrImplementsError typ) eqn:Himpl; cbn [negb]; [|discriminate].
  intros H; inversion H; subst.
  assert (Hl : errors.lookup name ((name, typ) :: d) = Some typ).
  { cbn. now rewrite String.eqb_refl. }
  split; [exact Hl|]. split.
  - intros other Hne. cbn. destruct (String.eqb name other) eqn:E; [|reflexivity].
    apply String.eqb_eq in E. now elim Hne.
  - intros ju ge body fields Hu. unfold errors.DecodeConjureError.
    rewrite Hl, Hu, Himpl. reflexivity.
Qed.

Lemma errors_register_then_decode_witness :
  errors.lookup "NotFound" [("NotFound"%string, errors.notFound)] = Some errors.notFound
  /\ errors.DecodeConjureError errors.echoUnmarshal errors.generic
       [("NotFound"%string, errors.notFound)] "NotFound" hello
     = (Some (errors.mkError errors.notFound hello), None).
Proof.
  destruct (errors_register_then_decode errors.NewReflectTypeConjureErrorDecoder
              [("NotFound"%string, errors.notFound)] "NotFound" errors.notFound eq_refl)
    as [H1 [_ H3]].
  split; [exact H1|].
  exact (H3 errors.echoUnmarshal errors.generic hello hello eq_refl).
Defined.

(** Registering a name that is already bound fails with the "already
    registered" error naming the existing type and leaves the registry as it
    was, whatever the new type is: the first registration wins, and the
    duplicate check comes before the check of the type.  The package
    function panics in that case. *)
Theorem errors_register_duplicate (d : errors.registry) (name : string)
  (existing typ : errors.rtype) :
  errors.lookup name d = Some existing ->
  errors.RegisterErrorType d name typ = (d, Some (errors.AlreadyRegistered name existing))
  /\ errors.RegisterErrorTypeGlobal d name typ = Panic.
Proof.
  intros H. unfold errors.RegisterErrorTypeGlobal, errors.RegisterErrorType.
  rewrite H. split; reflexivity.
Qed.

Lemma errors_register_duplicate_witness :
  errors.RegisterErrorType [("NotFound"%string, errors.notFound)] "NotFound" errors.plainStruct
  = ([("NotFound"%string, errors.notFound)],
     Some (errors.AlreadyRegistered "NotFound" errors.notFound))
  /\ errors.RegisterErrorTypeGlobal [("NotFound"%string, errors.notFound)]
       "NotFound" errors.plainStruct = Panic.
Proof.
  exact (errors_register_duplicate [("NotFound"%string, errors.notFound)] "NotFound"
           errors.notFound errors.plainStruct eq_refl).
Defined.

(** A type whose pointer does not implement [Error] is refused under a new
    name: the registry is unchanged and the package function panics. *)
Theorem errors_register_not_error_type (d : errors.registry) (name : string)
  (typ : errors.rtype) :
  errors.lookup name d = None -> errors.ptrImplementsError typ = false ->
  errors.RegisterErrorType d name typ = (d, Some (errors.NotErrorType typ))
  /\ errors.RegisterErrorTypeGlobal d name typ = Panic.
Proof.
  intros Hl Hi. unfold errors.RegisterErrorTypeGlobal, errors.RegisterErrorType.
  rewrite Hl, Hi. split; reflexivity.
Qed.

Lemma errors_register_not_error_type_witness :
  errors.RegisterErrorType [] "Plain" errors.plainStruct
  = ([], Some (errors.NotErrorType errors.plainStruct))
  /\ errors.RegisterErrorTypeGlobal [] "Plain" errors.plainStruct = Panic.
Proof.
  exact (errors_register_not_error_type [] "Plain" errors.plainStruct eq_refl eq_refl).
Defined.

(** [RegisterErrorType] keeps the registry well formed, whether it succeeds
    or fails: names stay bound once and every registered type's pointer
    implements [Error]. *)
Lemma errors_register_wellFormed d name typ d' e :
  errors.wellFormed d ->
  errors.RegisterErrorType d name typ = (d', e) ->
  errors.wellFormed d'.
Proof.
  intros [Hnd Hall]. unfold errors.RegisterErrorType.
  destruct (errors.lookup name d) eqn:Hl.
  - intros H; inversion H; subst. now split.
  - destruct (errors.ptrImplementsError typ) eqn:Hi; cbn [negb];
      intros H; inversion H; subst; [|now split].
    split.
    + cbn. constructor; [|exact Hnd]. now apply errors_lookup_In.
    + constructor; [exact Hi | exact Hall].
Qed.

Lemma errors_registerAll_wellFormed l d0 d e :
  errors.wellFormed d0 -> errors.registerAll d0 l = (d, e) -> errors.wellFormed d.
Proof.
  revert d0. induction l as [|[name typ] l IH]; intros d0 Hwf; cbn.
  - intros H; inversion H; subst; exact Hwf.
  - destruct (errors.RegisterErrorType d0 name typ) as [d1 [e1|]] eqn:Hr.
    + intros H; inversion H; subst.
      exact (errors_register_wellFormed _ _ _ _ _ Hwf Hr).
    + apply IH. exact (errors_register_wellFormed _ _ _ _ _ Hwf Hr).
Qed.

Lemma errors_wellFormed_lookup d name typ :
  errors.wellFormed d -> errors.lookup name d = Some typ ->
  errors.ptrImplementsError typ = true.
Proof.
  intros [_ Hf]. induction d as [|[k v] d IH]; cbn; [discriminate|].
  inversion Hf; subst.
  destruct (String.eqb k name); [|now apply IH].
  intros H; inversion H; subst. assumption.
Qed.

Lemma errors_new_wellFormed : errors.wellFormed errors.NewReflectTypeConjureErrorDecoder.
Proof. split; constructor. Qed.

Lemma errors_registerEach_wellFormed l d0 :
  errors.wellFormed d0 -> errors.wellFormed (fst (errors.registerEach d0 l)).
Proof.
  revert d0. induction l as [|[name typ] l IH]; intros d0 Hwf; cbn; [exact Hwf|].
  destruct (errors.RegisterErrorType d0 name typ) as [d1 [e1|]] eqn:Hr;
    pose proof (errors_register_wellFormed _ _ _ _ _ Hwf Hr) as Hwf1.
  - specialize (IH d1 Hwf1). destruct (errors.registerEach d1 l). exact IH.
  - now apply IH.
Qed.

(** What a name is bound to after the registrations [l]: what it was bound
    to before, or else the first type of [l] under that name whose pointer
    implements [Error]. *)
Lemma errors_registerEach_lookup l d0 name :
  errors.lookup name (fst (errors.registerEach d0 l))
  = match errors.lookup name d0 with
    | Some t => Some t
    | None => errors.firstErrorType name l
    end.
Proof.
  revert d0. induction l as [|[k typ] l IH]; intros d0; cbn [errors.registerEach].
  - cbn. now destruct (errors.lookup name d0).
  - unfold errors.RegisterErrorType. cbn [errors.firstErrorType].
    destruct (errors.lookup k d0) as [existing|] eqn:Hk.
    + specialize (IH d0). destruct (errors.registerEach d0 l) as [d2 es]. cbn [fst] in *.
      rewrite IH. destruct (errors.lookup name d0) eqn:Hn; [reflexivity|].
      destruct (String.eqb k name) eqn:E; [|reflexivity].
      apply String.eqb_eq in E. subst. congruence.
    + destruct (errors.ptrImplementsError typ) eqn:Hi; cbn [negb].
      * rewrite IH. cbn [errors.lookup].
        destruct (String.eqb k name) eqn:E; cbn [andb].
        -- apply String.eqb_eq in E. subst. now rewrite Hk.
        -- reflexivity.
      * specialize (IH d0). destruct (errors.registerEach d0 l) as [d2 es]. cbn [fst] in *.
        rewrite IH. now rewrite Bool.andb_false_r.
Qed.

(** Starting from the empty registry of
    [NewReflectTypeConjureErrorDecoder], any sequence of registrations,
    with the caller going on after each failed one, leaves a well-formed
    registry: every name is bound once and a lookup that succeeds gives a
    type whose pointer implements [Error].  The type a name is bound to is
    the first one registered under it whose pointer implements [Error];
    later registrations of the name fail and change nothing. *)
Theorem errors_registry_invariant (l : list (string * errors.rtype)) :
  let d := fst (errors.registerEach errors.NewReflectTypeConjureErrorDecoder l) in
  errors.wellFormed d
  /\ (forall name typ, errors.lookup name d = Some typ ->
                       errors.ptrImplementsError typ = true)
  /\ (forall name, errors.lookup name d = errors.firstErrorType name l).
Proof.
  cbv zeta.
  pose proof (errors_registerEach_wellFormed l _ errors_new_wellFormed) as Hwf.
  split; [exact Hwf|]. split.
  - intros name typ. now apply errors_wellFormed_lookup.
  - intros name. now rewrite errors_registerEach_lookup.
Qed.

(** Four registrations, the second of a type that is not an error and the
    third of a name already bound: both fail, the fourth still goes in. *)
Example errors_registerEach_goes_on :
  errors.registerEach errors.NewReflectTypeConjureErrorDecoder
    [("NotFound"%string, errors.notFound); ("Plain"%string, errors.plainStruct);
     ("NotFound"%string, errors.conflict); ("Conflict"%string, errors.conflict)]
  = ([("Conflict"%string, errors.conflict); ("NotFound"%string, errors.notFound)],
     [errors.NotErrorType errors.plainStruct;
      errors.AlreadyRegistered "NotFound" errors.notFound]).
Proof. reflexivity. Qed.

(** [DecodeConjureError] for a name that is not registered unmarshals the
    body into [genericError]; an unmarshal error comes back wrapped, with no
    error value, naming the type that was tried; a body that leaves the
    instance nil is refused. *)
Theorem errors_decode_unknown_name (jsonUnmarshal : list byte -> errors.rtype -> errors.unmarshalled)
  (genericError : errors.rtype) (d : errors.registry) (name : string) (body : list byte) :
  errors.lookup name d = None ->
  (forall fields, jsonUnmarshal body genericError = errors.UValue fields ->
     errors.ptrImplementsError genericError = true ->
     errors.DecodeConjureError jsonUnmarshal genericError d name body
     = (Some (errors.mkError genericError fields), None))
  /\ (forall cause, jsonUnmarshal body genericError = errors.UError cause ->
     errors.DecodeConjureError jsonUnmarshal genericError d name body
     = (None, Some (errors.UnmarshalFailed (errors.typeName genericError) cause)))
  /\ (jsonUnmarshal body genericError = errors.UNil ->
     errors.DecodeConjureError jsonUnmarshal genericError d name body
     = (None, Some (errors.NotErrorInstance (errors.typeName genericError)))).
Proof.
  intros Hl. unfold errors.DecodeConjureError. rewrite Hl.
  split; [|split].
  - intros fields -> ->. reflexivity.
  - intros cause ->. reflexivity.
  - intros ->. reflexivity.
Qed.

Lemma errors_decode_unknown_name_witness :
  errors.DecodeConjureError errors.echoUnmarshal errors.generic
    [("NotFound"%string, errors.notFound)] "Other" hello
  = (Some (errors.mkError errors.generic hello), None)
  /\ errors.DecodeConjureError errors.echoUnmarshal errors.generic
       [("NotFound"%string, errors.notFound)] "Other" []
     = (None, Some (errors.NotErrorInstance "genericError")).
Proof.
  split.
  - exact (proj1 (errors_decode_unknown_name errors.echoUnmarshal errors.generic
                    [("NotFound"%string, errors.notFound)] "Other" hello eq_refl)
                 hello eq_refl eq_refl).
  - exact (proj2 (proj2 (errors_decode_unknown_name errors.echoUnmarshal errors.generic
                    [("NotFound"%string, errors.notFound)] "Other" [] eq_refl))
                 eq_refl).
Defined.

(** [UnmarshalError] after a registration: when the body's [errorName] is
    the name just registered and the body unmarshals into the registered
    type, the error returned is of that type, with no error beside it. *)
Theorem UnmarshalError_registered (jsonUnmarshal : list byte -> errors.rtype -> errors.unmarshalled)
  (genericError : errors.rtype) (jsonName : list byte -> string * option nat)
  (werrorConvert : errors.failure -> errors.failure)
  (d d' : errors.registry) (name : string) (typ : errors.rtype) (body fields : list byte) :
  errors.RegisterErrorType d name typ = (d', None) ->
  jsonName body = (name, None) ->
  jsonUnmarshal body typ = errors.UValue fields ->
  errors.UnmarshalError jsonUnmarshal genericError jsonName werrorConvert d' body
  = (Some (errors.mkError typ fields), None).
Proof.
  unfold errors.RegisterErrorType.
  destruct (errors.lookup name d); [discriminate|].
  destruct (errors.ptrImplementsError typ) eqn:Himpl; cbn [negb]; [|discriminate].
  intros H Hname Hu; inversion H; subst.
  unfold errors.UnmarshalError, errors.UnmarshalErrorWithDecoder, errors.DecodeConjureError.
  rewrite Hname. cbn [errors.lookup]. rewrite String.eqb_refl, Hu, Himpl. reflexivity.
Qed.

Lemma UnmarshalError_registered_witness :
  errors.UnmarshalError errors.echoUnmarshal errors.generic errors.notFoundName
    (fun e => e) [("NotFound"%string, errors.notFound)] hello
  = (Some (errors.mkError errors.notFound hello), None).
Proof.
  exact (UnmarshalError_registered errors.echoUnmarshal errors.generic errors.notFoundName
           (fun e => e) [] [("NotFound"%string, errors.notFound)] "NotFound"
           errors.notFound hello hello eq_refl eq_refl eq_refl).
Defined.

(** [UnmarshalError] over a registry built by registrations, when
    [genericError] implements [Error]: it returns either an error value and
    no error, or no value and an error, never both and never neither; the
    value's type always implements [Error]; and a body whose name cannot
    be read is refused before any type is tried. *)
Theorem UnmarshalError_value_xor_error (jsonUnmarshal : list byte -> errors.rtype -> errors.unmarshalled)
  (genericError : errors.rtype) (jsonName : list byte -> string * option nat)
  (werrorConvert : errors.failure -> errors.failure)
  (l : list (string * errors.rtype)) (d : errors.registry) e0 (body : list byte) :
  errors.registerAll errors.NewReflectTypeConjureErrorDecoder l = (d, e0) ->
  errors.ptrImplementsError genericError = true ->
  ((exists cerr,
       errors.UnmarshalError jsonUnmarshal genericError jsonName werrorConvert d body
       = (Some cerr, None)
       /\ errors.ptrImplementsError (errors.errType cerr) = true)
   \/ (exists err,
       errors.UnmarshalError jsonUnmarshal genericError jsonName werrorConvert d body
       = (None, Some err)))
  /\ (forall cause, snd (jsonName body) = Some cause ->
       errors.UnmarshalError jsonUnmarshal genericError jsonName werrorConvert d body
       = (None, Some (errors.NotConjureError cause))).
Proof.
  intros Hreg Hgen.
  assert (Hall : forall name typ, errors.lookup name d = Some typ ->
                                  errors.ptrImplementsError typ = true).
  { intros name typ. apply errors_wellFormed_lookup.
    exact (errors_registerAll_wellFormed _ _ _ _ errors_new_wellFormed Hreg). }
  unfold errors.UnmarshalError, errors.UnmarshalErrorWithDecoder, errors.DecodeConjureError.
  destruct (jsonName body) as [name [cause|]]; cbn [snd].
  - split; [right; eexists; reflexivity|].
    intros c H; inversion H; reflexivity.
  - split; [|discriminate].
    assert (Ht : errors.ptrImplementsError
                   match errors.lookup name d with
                   | Some t => t
                   | None => genericError
                   end = true).
    { destruct (errors.lookup name d) eqn:Hl; [exact (Hall _ _ Hl) | exact Hgen]. }
    destruct (jsonUnmarshal body _) as [cause| |fields].
    + right; eexists; reflexivity.
    + right; eexists; reflexivity.
    + rewrite Ht. left. eexists. split; [reflexivity | exact Ht].
Qed.

Lemma UnmarshalError_value_xor_error_witness :
  errors.UnmarshalError errors.echoUnmarshal errors.generic errors.notFoundName
    (fun e => e) [("Conflict"%string, errors.conflict)] []
  = (None, Some (errors.NotConjureError 1%nat)).
Proof.
  exact (proj2 (UnmarshalError_value_xor_error errors.echoUnmarshal errors.generic
                  errors.notFoundName (fun e => e)
                  [("Conflict"%string, errors.conflict)]
                  [("Conflict"%string, errors.conflict)] None [] eq_refl eq_refl)
               1%nat eq_refl).
Defined.

(** * refreshingclient *)

Lemma notify_app {T W} (subs1 subs2 : list (refreshingclient.consumer T W)) c w :
  refreshingclient.notify (subs1 ++ subs2) c w
  = match refreshingclient.notify subs1 c w with
    | (Val _, w') => refreshingclient.notify subs2 c w'
    | (Panic, w') => (Panic, w')
    end.
Proof.
  revert w. induction subs1 as [|[sub|] subs1 IH]; intros w; cbn.
  - reflexivity.
  - destruct (sub c w) as [[[]|] w']; [apply IH | reflexivity].
  - reflexivity.
Qed.

Lemma subscribeAll_subscribers {T W} (cs : list (refreshingclient.consumer T W)) m :
  refreshingclient.subscribers (refreshingclient.subscribeAll cs m)
  = refreshingclient.subscribers m ++ cs
  /\ refreshingclient.conf (refreshingclient.subscribeAll cs m) = refreshingclient.conf m.
Proof.
  revert m. induction cs as [|c cs IH]; intros m; cbn.
  - now rewrite app_nil_r.
  - destruct (IH (refreshingclient.mkMapped (refreshingclient.conf m)
                    (refreshingclient.subscribers m ++ [c]))) as [H1 H2].
    rewrite H1, H2. cbn. now rewrite <- app_assoc.
Qed.

(** After any number of consumers have subscribed to a fresh
    [MappedRefreshableTLSConfig], [update] stores the new configuration and
    calls every subscriber exactly once, in the order of subscription, each
    with the new configuration. *)
Theorem Mapped_update_notifies_in_order (T : Type) (ids : list nat) (c : option T)
  (log : list (nat * option T)) :
  refreshingclient.Mapped_update
    (refreshingclient.subscribeAll (map refreshingclient.logger ids)
       refreshingclient.zeroMapped) c log
  = (refreshingclient.mkMapped c (map refreshingclient.logger ids),
     (Val tt, log ++ map (fun i => (i, c)) ids)).
Proof.
  unfold refreshingclient.Mapped_update.
  destruct (subscribeAll_subscribers (map refreshingclient.logger ids)
              (@refreshingclient.zeroMapped T _)) as [Hs _].
  rewrite Hs. cbn [refreshingclient.zeroMapped refreshingclient.subscribers app].
  assert (Hn : forall log, refreshingclient.notify (map refreshingclient.logger ids) c log
                           = (Val tt, log ++ map (fun i => (i, c)) ids)).
  { clear. induction ids as [|i ids IH]; intros log; cbn.
    - now rewrite app_nil_r.
    - rewrite IH, <- app_assoc. reflexivity. }
  now rewrite Hn.
Qed.

(** [SubscribeToTLSConfig] on a [MappedRefreshableTLSConfig] neither calls
    the consumer nor changes the configuration, and the function it returns
    does not unsubscribe: after calling it, the next [update] still calls
    the consumer, after the earlier subscribers. *)
Theorem Mapped_unsubscribe_is_noop (T W : Type)
  (m m1 : refreshingclient.MappedRefreshableTLSConfig T W)
  (f : refreshingclient.consumer T W) unsubscribe (c : option T) (w : W) :
  refreshingclient.Mapped_SubscribeToTLSConfig f m = (unsubscribe, m1) ->
  refreshingclient.Mapped_GetTLSConfig m1 = refreshingclient.Mapped_GetTLSConfig m
  /\ exists u, unsubscribe = Some u
     /\ u m1 = m1
     /\ snd (refreshingclient.Mapped_update (u m1) c w)
        = match snd (refreshingclient.Mapped_update m c w) with
          | (Val _, w') => refreshingclient.notify [f] c w'
          | (Panic, w') => (Panic, w')
          end.
Proof.
  unfold refreshingclient.Mapped_SubscribeToTLSConfig.
  intros H; inversion H; subst. split; [reflexivity|].
  eexists; split; [reflexivity|]. split; [reflexivity|].
  cbn [refreshingclient.Mapped_update snd refreshingclient.subscribers].
  apply notify_app.
Qed.

Lemma Mapped_unsubscribe_is_noop_witness :
  exists u,
    fst (refreshingclient.Mapped_SubscribeToTLSConfig refreshingclient.countingConsumer
           (@refreshingclient.zeroMapped nat nat)) = Some u
    /\ snd (refreshingclient.Mapped_update
              (u (snd (refreshingclient.Mapped_SubscribeToTLSConfig
                         refreshingclient.countingConsumer
                         (@refreshingclient.zeroMapped nat nat)))) (Some 5%nat) 1%nat)
       = (Val tt, 6%nat).
Proof.
  destruct (Mapped_unsubscribe_is_noop nat nat refreshingclient.zeroMapped _
              refreshingclient.countingConsumer _ (Some 5%nat) 1%nat eq_refl)
    as [_ [u [Hu [_ Hn]]]].
  exists u. split; [exact Hu | exact Hn].
Defined.

(** A nil consumer is accepted by [SubscribeToTLSConfig]; the next [update]
    stores the new configuration, calls the earlier subscribers and then
    panics, so that the consumers subscribed after the nil one are not
    called. *)
Theorem Mapped_nil_consumer_panics_on_update (T W : Type)
  (m : refreshingclient.MappedRefreshableTLSConfig T W)
  (later : list (refreshingclient.consumer T W)) (c : option T) (w w1 : W) :
  refreshingclient.notify (refreshingclient.subscribers m) c w = (Val tt, w1) ->
  refreshingclient.Mapped_update (refreshingclient.subscribeAll (None :: later) m) c w
  = (refreshingclient.mkMapped c (refreshingclient.subscribers m ++ None :: later),
     (Panic, w1)).
Proof.
  intros Hn. unfold refreshingclient.Mapped_update.
  destruct (subscribeAll_subscribers (None :: later) m) as [Hs _].
  rewrite Hs, notify_app, Hn. reflexivity.
Qed.

Lemma Mapped_nil_consumer_panics_on_update_witness :
  refreshingclient.Mapped_update
    (refreshingclient.subscribeAll
       [refreshingclient.countingConsumer; None; refreshingclient.countingConsumer]
       refreshingclient.zeroMapped) (Some 5%nat) 1%nat
  = (refreshingclient.mkMapped (Some 5%nat)
       [refreshingclient.countingConsumer; None; refreshingclient.countingConsumer],
     (Panic, 6%nat)).
Proof.
  exact (Mapped_nil_consumer_panics_on_update nat nat
           (refreshingclient.subscribeAll [refreshingclient.countingConsumer]
              refreshingclient.zeroMapped)
           [refreshingclient.countingConsumer] (Some 5%nat) 1%nat 6%nat eq_refl).
Defined.

(** [ConfigureTLSConfig] over a [MappedRefreshableTLSConfig] [r]: the
    configuration returned holds nil, whatever [r] holds, until [r] is
    updated; an update of [r] with [c] calls [r]'s earlier subscribers and
    then updates the returned configuration, in whatever state [mcur] it is
    by then, with [mapFn c], which notifies its subscribers with
    [mapFn c]. *)
Theorem ConfigureTLSConfig_follows_updates (T W : Type)
  (r r' : refreshingclient.MappedRefreshableTLSConfig T
            (refreshingclient.MappedRefreshableTLSConfig T W * W))
  (mapFn : option T -> option T) (m mcur : refreshingclient.MappedRefreshableTLSConfig T W)
  (c : option T) (w : W) mw1 :
  refreshingclient.ConfigureTLSConfig (refreshingclient.MappedConf T _) r mapFn = (r', m) ->
  refreshingclient.notify (refreshingclient.subscribers r) c (mcur, w) = (Val tt, mw1) ->
  refreshingclient.Mapped_GetTLSConfig m = None
  /\ refreshingclient.Mapped_GetTLSConfig r' = refreshingclient.Mapped_GetTLSConfig r
  /\ exists m2,
       snd (refreshingclient.Mapped_update r' c (mcur, w))
       = (fst (snd (refreshingclient.Mapped_update (fst mw1) (mapFn c) (snd mw1))),
          (m2, snd (snd (refreshingclient.Mapped_update (fst mw1) (mapFn c) (snd mw1)))))
       /\ refreshingclient.Mapped_GetTLSConfig m2 = mapFn c
       /\ refreshingclient.subscribers m2 = refreshingclient.subscribers (fst mw1).
Proof.
  unfold refreshingclient.ConfigureTLSConfig. cbn.
  intros H Hn; inversion H; subst. split; [reflexivity|]. split; [reflexivity|].
  eexists. split; [|split].
  - unfold refreshingclient.Mapped_update.
    cbn [snd refreshingclient.subscribers].
    rewrite notify_app, Hn. cbn.
    destruct (refreshingclient.notify (refreshingclient.subscribers (fst mw1))
                (mapFn c) (snd mw1)) as [[[]|] w2]; cbn; reflexivity.
  - reflexivity.
  - reflexivity.
Qed.

Lemma ConfigureTLSConfig_follows_updates_witness :
  exists m2,
    snd (refreshingclient.Mapped_update
           (fst (refreshingclient.ConfigureTLSConfig (refreshingclient.MappedConf nat _)
                   (refreshingclient.mkMapped (Some 1%nat) [])
                   (option_map S)))
           (Some 4%nat)
           (refreshingclient.subscribeAll [refreshingclient.countingConsumer]
              refreshingclient.zeroMapped, 0%nat))
    = (Val tt, (m2, 5%nat))
    /\ refreshingclient.Mapped_GetTLSConfig m2 = Some 5%nat.
Proof.
  destruct (ConfigureTLSConfig_follows_updates nat nat
              (refreshingclient.mkMapped (Some 1%nat) []) _ (option_map S) _
              (refreshingclient.subscribeAll [refreshingclient.countingConsumer]
                 refreshingclient.zeroMapped)
              (Some 4%nat) 0%nat
              (refreshingclient.subscribeAll [refreshingclient.countingConsumer]
                 refreshingclient.zeroMapped, 0%nat) eq_refl eq_refl)
    as [_ [_ [m2 [H1 [H2 _]]]]].
  exists m2. split; [exact H1 | exact H2].
Defined.

(** [ConfigureTLSConfig] over a [StaticTLSConfigProvider]: the provider
    drops the closure, so the configuration returned holds nil and has no
    one to update it, although the provider itself returns its
    configuration. *)
Theorem ConfigureTLSConfig_static_is_nil (T W : Type) (c : option T)
  (mapFn : option T -> option T) :
  let p := refreshingclient.NewStaticTLSConfigProvider c in
  let '(p', m) := refreshingclient.ConfigureTLSConfig
                    (refreshingclient.StaticConf T
                       (refreshingclient.MappedRefreshableTLSConfig T W * W)) p mapFn in
  refreshingclient.Mapped_GetTLSConfig m = None
  /\ p' = p
  /\ refreshingclient.GetTLSConfig (refreshingclient.StaticConf T W) p' = c
  /\ fst (refreshingclient.SubscribeToTLSConfig (refreshingclient.StaticConf T W)
            None p') = None.
Proof.
  cbn. repeat split.
Qed.

(** [NewTLSConfig] passes a key pair on only when both [CertFile] and
    [KeyFile] are set: with one of them empty the result is that of the
    parameters with neither, and no error is reported for the half-given
    pair. *)
Theorem NewTLSConfig_key_pair_needs_both (T : Type)
  (NewClientConfig : list refreshingclient.ClientParam -> option T * option nat)
  (p : refreshingclient.TLSParams) :
  refreshingclient.CertFile p = ""%string \/ refreshingclient.KeyFile p = ""%string ->
  refreshingclient.NewTLSConfig NewClientConfig p
  = refreshingclient.NewTLSConfig NewClientConfig
      (refreshingclient.mkTLSParams (refreshingclient.CAFiles p) "" ""
         (refreshingclient.InsecureSkipVerify p)).
Proof.
  intros H. unfold refreshingclient.NewTLSConfig, refreshingclient.tlsParams. cbn.
  destruct H as [-> | ->]; cbn.
  - reflexivity.
  - rewrite Bool.andb_false_r. reflexivity.
Qed.

Lemma NewTLSConfig_key_pair_needs_both_witness :
  refreshingclient.NewTLSConfig refreshingclient.paramCount refreshingclient.certOnly
  = refreshingclient.NewTLSConfig refreshingclient.paramCount
      (refreshingclient.mkTLSParams [] "" "" false).
Proof.
  exact (NewTLSConfig_key_pair_needs_both nat refreshingclient.paramCount
           refreshingclient.certOnly (or_intror eq_refl)).
Defined.

(** The parameters [NewTLSConfig] hands to [tlsconfig.NewClientConfig]: a
    key pair is among them exactly when both files are set, and it is the
    pair of the [TLSParams]; the CA files are among them exactly when there
    is one; certificate verification is switched off exactly when
    [InsecureSkipVerify] is set. *)
Theorem tlsParams_members (p : refreshingclient.TLSParams) :
  (forall a b, In (refreshingclient.ClientKeyPairFiles a b) (refreshingclient.tlsParams p)
               <-> a = refreshingclient.CertFile p /\ b = refreshingclient.KeyFile p
                   /\ a <> ""%string /\ b <> ""%string)
  /\ (forall fs, In (refreshingclient.ClientRootCAFiles fs) (refreshingclient.tlsParams p)
                 <-> fs = refreshingclient.CAFiles p /\ fs <> [])
  /\ (In refreshingclient.ClientInsecureSkipVerify (refreshingclient.tlsParams p)
      <-> refreshingclient.InsecureSkipVerify p = true).
Proof.
  destruct p as [cas cert key ins]. unfold refreshingclient.tlsParams. cbn.
  assert (Hc : String.eqb cert "" = true <-> cert = ""%string) by apply String.eqb_eq.
  assert (Hk : String.eqb key "" = true <-> key = ""%string) by apply String.eqb_eq.
  split; [|split]; intros; rewrite !in_app_iff.
  - destruct (String.eqb cert ""), (String.eqb key ""), cas, ins; cbn;
      (split;
       [ intros [H | [H | H]];
         repeat match goal with
                | H : _ \/ _ |- _ => destruct H
                | H : False |- _ => destruct H
                end;
         try discriminate;
         match goal with
         | H : refreshingclient.ClientKeyPairFiles _ _ = _ |- _ =>
             inversion H; subst; repeat split; intros E;
             [apply Hc in E | apply Hk in E]; discriminate
         end
       | intros [-> [-> [Ha Hb]]];
         try (elim Ha; now apply Hc); try (elim Hb; now apply Hk); auto ]).
  - destruct (String.eqb cert ""), (String.eqb key ""), cas, ins; cbn;
      (split;
       [ intros [H | [H | H]];
         repeat match goal with
                | H : _ \/ _ |- _ => destruct H
                | H : False |- _ => destruct H
                end;
         try discriminate;
         match goal with
         | H : refreshingclient.ClientRootCAFiles _ = _ |- _ =>
             inversion H; subst; split; [reflexivity | discriminate]
         end
       | intros [-> Hne]; try (now elim Hne); auto ]).
  - destruct (String.eqb cert ""), (String.eqb key ""), cas, ins; cbn;
      (split;
       [ intros [H | [H | H]];
         repeat match goal with
                | H : _ \/ _ |- _ => destruct H
                | H : False |- _ => destruct H
                end;
         try discriminate; reflexivity
       | intros H; try discriminate; auto ]).
Qed.
